(** * Bruin Ball: the fixed-step simulator, the bodies and the game rules

    A shallow embedding of [main-scene.js]: the class [Body], the
    fixed-step loop of [Final_Project.simulate], the per-tick rules of
    [Baseball.update_state] and the game logic of [Final_Project.display]
    (level progression, pitch spawn).

    JavaScript numbers are idealised as exact rationals ([Qc], canonical
    rationals with Leibniz equality): constants such as [0.1], [1/20],
    [-9.7] and [0.6] are the rationals they denote and no rounding takes
    place.  The matrix library of the scene framework ([Mat4.translation],
    [Mat4.rotation], ...) is imported by the source from another file; it
    is an interface here ([MatrixLib]) and every theorem holds for each of
    its implementations. *)

From Stdlib Require Import QArith Qcanon Qround Lqa Lia ZArith.
From stdpp Require Import base decidable option list numbers.

Local Open Scope Qc_scope.

(** ** Numbers *)

Module Num.

Abbreviation num := Qc.

(** The rational [n/d] as a number literal. *)
Definition qc (n : Z) (d : positive) : num := Q2Qc (n # d).

Definition of_Z (n : Z) : num := Q2Qc (inject_Z n).

(** [Math.abs], [Math.sign], [Math.min], [Math.floor], [Math.ceil]. *)
Definition Math_abs (x : num) : num := if decide (x < 0) then - x else x.

Definition Math_sign (x : num) : num :=
  if decide (0 < x) then 1 else if decide (x < 0) then - 1 else 0.

Definition Math_min (x y : num) : num := if decide (y < x) then y else x.

Definition Math_floor (x : num) : Z := Qfloor x.

Definition Math_ceil (x : num) : Z := Qceiling x.

End Num.
Import Num.

(** ** Vectors and matrices

    [Vec.of(a, b, c)] is a record of three numbers, indexed [v.[0]],
    [v.[1]], [v.[2]] in the source; a [Mat4] is an array of four rows of
    four numbers. *)

Record Vec3 := Vec_of { v0 : num; v1 : num; v2 : num }.

Record Vec4 := Vec4_of { w0 : num; w1 : num; w2 : num; w3 : num }.

Record Mat4 := Mat_of { row0 : Vec4; row1 : Vec4; row2 : Vec4; row3 : Vec4 }.

Module Vec.

(** Modelled from the spec: [Vec.plus] of the matrix library (imported
    from resources.js, which is not among the sources), the component-wise
    sum. *)
Definition plus (a b : Vec3) : Vec3 :=
  Vec_of (v0 a + v0 b) (v1 a + v1 b) (v2 a + v2 b).

(** Modelled from the spec: [Vec.times] of the same library, the product
    by a scalar. *)
Definition times (a : Vec3) (s : num) : Vec3 :=
  Vec_of (v0 a * s) (v1 a * s) (v2 a * s).

(** Modelled from the spec: [Vec.dot] of the same library. *)
Definition dot (a b : Vec3) : num := v0 a * v0 b + v1 a * v1 b + v2 a * v2 b.

(** Modelled from the spec: [Vec.mix] of the same library, the
    component-wise linear interpolation, [(1 - s) * x + s * b] on each
    component. *)
Definition mix1 (x b s : num) : num := (1 - s) * x + s * b.

(** Modelled from the spec: [Vec.mix] on vectors of three numbers. *)
Definition mix (a b : Vec3) (s : num) : Vec3 :=
  Vec_of (mix1 (v0 a) (v0 b) s) (mix1 (v1 a) (v1 b) s) (mix1 (v2 a) (v2 b) s).

(** Modelled from the spec: [Vec.mix] on the rows of a matrix. *)
Definition mix4 (a b : Vec4) (s : num) : Vec4 :=
  Vec4_of (mix1 (w0 a) (w0 b) s) (mix1 (w1 a) (w1 b) s)
          (mix1 (w2 a) (w2 b) s) (mix1 (w3 a) (w3 b) s).

(** Modelled from the spec: [Vec.to4] and [Vec.to3] of the same library,
    from a point to homogeneous coordinates and back. *)
Definition to4 (a : Vec3) (w : num) : Vec4 := Vec4_of (v0 a) (v1 a) (v2 a) w.

Definition to3 (a : Vec4) : Vec3 := Vec_of (w0 a) (w1 a) (w2 a).

(** [a.every(p)] on the three components. *)
Definition every (p : num -> bool) (a : Vec3) : bool :=
  p (v0 a) && p (v1 a) && p (v2 a).

(** Modelled from the spec: [a.norm() < c] for a positive bound [c], with
    [Vec.norm] of the same library: the norm is the square root of
    [dot a a], so the comparison is the one of the squares. *)
Definition norm_lt (a : Vec3) (c : num) : bool := bool_decide (dot a a < c * c).

End Vec.

(** The functions of the scene framework that the simulation calls.  They
    come from the library the source imports; nothing is assumed about
    them. *)
Class MatrixLib := {
  (** [Mat4.translation(v)] *)
  Mat4_translation : Vec3 -> Mat4;
  (** [Mat4.scale(v)] *)
  Mat4_scale : Vec3 -> Mat4;
  (** [Mat4.rotation(angle, axis)] *)
  Mat4_rotation : num -> Vec3 -> Mat4;
  (** [Mat4.inverse(m)] *)
  Mat4_inverse : Mat4 -> Mat4;
  (** [a.times(b)] for two matrices *)
  Mat_times : Mat4 -> Mat4 -> Mat4;
  (** [a.times(p)] for a matrix and a vector of four numbers *)
  Mat_times_vec : Mat4 -> Vec4 -> Vec4;
  (** the vertex positions of [new defs.Subdivision_Sphere(2)] *)
  Subdivision_Sphere_2 : list Vec3
}.

(** ** Results of fallible or looping code *)

Inductive outcome (A : Type) : Type :=
  | Done (a : A)      (* normal completion *)
  | Throw             (* a JavaScript exception (TypeError on undefined) *)
  | OutOfFuel.        (* the loop has not finished within the allotted steps *)

Arguments Done {A} a.
Arguments Throw {A}.
Arguments OutOfFuel {A}.

#[global] Instance outcome_ret : MRet outcome := fun A a => Done a.

#[global] Instance outcome_bind : MBind outcome := fun A B k m =>
  match m with
  | Done a => k a
  | Throw => Throw
  | OutOfFuel => OutOfFuel
  end.

(** [for (let i of idx) body(i)], threading the state and stopping at the
    first exception. *)
Fixpoint for_each {S : Type} (idx : list nat) (body : nat -> S -> outcome S)
    (s : S) : outcome S :=
  match idx with
  | [] => Done s
  | i :: rest => s' ← body i s; for_each rest body s'
  end.

(** ** The class [Body] *)

(** The two shapes and materials that bodies in play carry. *)
Inductive Shape := cylinder | ball_4.

Inductive Material := aluminum | baseball.

#[global] Instance Shape_eq_dec : EqDecision Shape.
Proof. solve_decision. Defined.

(** The object [{ center, rotation }] stored in [this.previous]. *)
Record Placement := { at_center : Vec3; at_rotation : Mat4 }.

(** The fields of a [Body].  [inverse] is the property that
    [update_state] caches on a body; it is undefined until then. *)
Record Body := {
  shape : Shape;
  material : Material;
  size : Vec3;
  center : Vec3;
  rotation : Mat4;
  previous : Placement;
  drawn_location : Mat4;
  linear_velocity : Vec3;
  angular_velocity : num;
  spin_axis : Vec3;
  inverse : option Mat4
}.

(** The record [{ intersect_test, points, leeway }] held in [this.collider]. *)
Record Collider := {
  intersect_test : Vec3 -> num -> bool;
  points : list Vec3;
  leeway : num
}.

Definition placement (b : Body) : Placement :=
  {| at_center := center b; at_rotation := rotation b |}.

Definition set_linear_velocity (v : Vec3) (b : Body) : Body :=
  {| shape := shape b; material := material b; size := size b;
     center := center b; rotation := rotation b; previous := previous b;
     drawn_location := drawn_location b; linear_velocity := v;
     angular_velocity := angular_velocity b; spin_axis := spin_axis b;
     inverse := inverse b |}.

Definition set_angular_velocity (w : num) (b : Body) : Body :=
  {| shape := shape b; material := material b; size := size b;
     center := center b; rotation := rotation b; previous := previous b;
     drawn_location := drawn_location b; linear_velocity := linear_velocity b;
     angular_velocity := w; spin_axis := spin_axis b;
     inverse := inverse b |}.

Definition set_inverse_material (i : Mat4) (m : Material) (b : Body) : Body :=
  {| shape := shape b; material := m; size := size b;
     center := center b; rotation := rotation b; previous := previous b;
     drawn_location := drawn_location b; linear_velocity := linear_velocity b;
     angular_velocity := angular_velocity b; spin_axis := spin_axis b;
     inverse := Some i |}.

Section Body.

Context `{MatrixLib}.

(** [new Body(shape, material, size).emplace(location_matrix,
    linear_velocity, angular_velocity, spin_axis)]: every body of the
    program is created this way, so the constructor and the first
    [emplace] are one function.  [spin_axis] is the random unit vector
    that the default argument draws when the caller gives none. *)
Definition new_Body (shape : Shape) (material : Material) (size : Vec3)
    (location_matrix : Mat4) (linear_velocity : Vec3) (angular_velocity : num)
    (spin_axis : Vec3) : Body :=
  let center := Vec.to3 (Mat_times_vec location_matrix (Vec4_of 0 0 0 1)) in
  let rotation :=
    Mat_times (Mat4_translation (Vec.times center (- 1))) location_matrix in
  {| shape := shape; material := material; size := size;
     center := center; rotation := rotation;
     previous := {| at_center := center; at_rotation := rotation |};
     drawn_location := location_matrix;
     linear_velocity := linear_velocity;
     angular_velocity := angular_velocity;
     spin_axis := spin_axis;
     inverse := None |}.

(** [emplace]: assign the body's values anew. *)
Definition emplace (location_matrix : Mat4) (linear_velocity : Vec3)
    (angular_velocity : num) (spin_axis : Vec3) (b : Body) : Body :=
  let center := Vec.to3 (Mat_times_vec location_matrix (Vec4_of 0 0 0 1)) in
  let rotation :=
    Mat_times (Mat4_translation (Vec.times center (- 1))) location_matrix in
  {| shape := shape b; material := material b; size := size b;
     center := center; rotation := rotation;
     previous := {| at_center := center; at_rotation := rotation |};
     drawn_location := location_matrix;
     linear_velocity := linear_velocity;
     angular_velocity := angular_velocity;
     spin_axis := spin_axis;
     inverse := inverse b |}.

(** [advance(time_amount)]: one step of forward Euler. *)
Definition advance (time_amount : num) (b : Body) : Body :=
  {| shape := shape b; material := material b; size := size b;
     center := Vec.plus (center b) (Vec.times (linear_velocity b) time_amount);
     rotation :=
       Mat_times
         (Mat4_rotation (time_amount * angular_velocity b) (spin_axis b))
         (rotation b);
     previous := {| at_center := center b; at_rotation := rotation b |};
     drawn_location := drawn_location b;
     linear_velocity := linear_velocity b;
     angular_velocity := angular_velocity b;
     spin_axis := spin_axis b;
     inverse := inverse b |}.

(** [blend_rotation(alpha)]: row [i] of the result is row [i] of
    [previous.rotation] mixed with row [i] of [rotation]. *)
Definition blend_rotation (alpha : num) (b : Body) : Mat4 :=
  let p := at_rotation (previous b) in
  let r := rotation b in
  Mat_of (Vec.mix4 (row0 p) (row0 r) alpha) (Vec.mix4 (row1 p) (row1 r) alpha)
         (Vec.mix4 (row2 p) (row2 r) alpha) (Vec.mix4 (row3 p) (row3 r) alpha).

(** The matrix that [blend_state(alpha)] stores in [drawn_location]. *)
Definition blended_location (alpha : num) (b : Body) : Mat4 :=
  Mat_times
    (Mat_times
       (Mat4_translation (Vec.mix (at_center (previous b)) (center b) alpha))
       (blend_rotation alpha b))
    (Mat4_scale (size b)).

Definition blend_state (alpha : num) (b : Body) : Body :=
  {| shape := shape b; material := material b; size := size b;
     center := center b; rotation := rotation b; previous := previous b;
     drawn_location := blended_location alpha b;
     linear_velocity := linear_velocity b;
     angular_velocity := angular_velocity b;
     spin_axis := spin_axis b;
     inverse := inverse b |}.

(** The pose composed from a center, a rotation and the size scale. *)
Definition pose_of (p : Placement) (size : Vec3) : Mat4 :=
  Mat_times (Mat_times (Mat4_translation (at_center p)) (at_rotation p))
            (Mat4_scale size).

(** [Body.intersect_cube] and [Body.intersect_sphere]. *)
Definition intersect_cube (p : Vec3) (margin : num) : bool :=
  Vec.every
    (fun value => bool_decide (- 1 - margin <= value)
                  && bool_decide (value <= 1 + margin)) p.

Definition intersect_sphere (p : Vec3) (margin : num) : bool :=
  bool_decide (Vec.dot p p < 1 + margin).

(** The point [T.times(p.to4(1)).to3()]. *)
Definition transform_point (T : Mat4) (p : Vec3) : Vec3 :=
  Vec.to3 (Mat_times_vec T (Vec.to4 p 1)).

(** [a.check_if_colliding(b, collider)].  Bodies are objects, compared by
    identity in [this == b]; the objects live in the array [bodies] and a
    reference is a position in it.  Reading [this.inverse] before it was
    ever assigned raises a TypeError. *)
Definition check_if_colliding (bodies : list Body) (a b : nat)
    (collider : Collider) : outcome bool :=
  if decide (a = b) then Done false
  else
    match bodies !! a, bodies !! b with
    | Some this, Some other =>
        match inverse this with
        | None => Throw
        | Some inv =>
            let T := Mat_times inv (drawn_location other) in
            Done (existsb
                    (fun p => intersect_test collider (transform_point T p)
                                (leeway collider))
                    (points collider))
        end
    | _, _ => Throw
    end.

End Body.

(** ** The scene: clock and game state

    The fields of the scene object that the simulation reads or writes.
    [Clock] groups the fields of the fixed-step loop; nothing but the loop
    assigns them.  [Game] groups the bodies in play, the collider, the
    game logistics and the game variables.  [log] records, latest first,
    the calls that the rules of the game make: those that play the three
    cues of play ([crack], [homerun], [no_homerun]) and those that step the
    camera helper.  The music of the screens ([maplestory], [minecraft],
    [you_win]), which [display] plays and pauses by the game state alone,
    is not recorded. *)

Inductive GameState := not_started | started | game_over | game_won.

#[global] Instance GameState_eq_dec : EqDecision GameState.
Proof. solve_decision. Defined.

Inductive Effect :=
  | play_crack | play_homerun | play_no_homerun
  | camera_decrease | camera_increase.

#[global] Instance Effect_eq_dec : EqDecision Effect.
Proof. solve_decision. Defined.

Record Clock := {
  time_accumulator : num;
  time_scale : num;
  t : num;
  dt : num;
  steps_taken : Z
}.

(** [current_game_level] holds the strings "1" to "4" of [game_level], or
    the number 1 after a restart; the source compares it with [==], which
    takes a numeric string for its number, so the level is kept as the
    integer it denotes. *)
Record Game := {
  bodies : list Body;
  collider : Collider;
  current_game_state : GameState;
  current_game_level : Z;
  game_score : Z;
  game_target : Z;
  game_started : Z;
  pitch_count : Z;
  ball_hit : bool;
  ball_bounced : bool;
  pitch_time : bool;
  pitch_timer : num;
  log : list Effect
}.

Record Scene := { clock : Clock; game : Game }.

Module Level.
Definition one : Z := 1.
Definition two : Z := 2.
Definition three : Z := 3.
Definition four : Z := 4.
End Level.

(** Field updates of [Game]. *)
Definition set_bodies (l : list Body) (g : Game) : Game :=
  {| bodies := l; collider := collider g;
     current_game_state := current_game_state g;
     current_game_level := current_game_level g;
     game_score := game_score g; game_target := game_target g;
     game_started := game_started g; pitch_count := pitch_count g;
     ball_hit := ball_hit g; ball_bounced := ball_bounced g;
     pitch_time := pitch_time g; pitch_timer := pitch_timer g;
     log := log g |}.

Definition set_ball_hit (v : bool) (g : Game) : Game :=
  {| bodies := bodies g; collider := collider g;
     current_game_state := current_game_state g;
     current_game_level := current_game_level g;
     game_score := game_score g; game_target := game_target g;
     game_started := game_started g; pitch_count := pitch_count g;
     ball_hit := v; ball_bounced := ball_bounced g;
     pitch_time := pitch_time g; pitch_timer := pitch_timer g;
     log := log g |}.

Definition set_ball_bounced (v : bool) (g : Game) : Game :=
  {| bodies := bodies g; collider := collider g;
     current_game_state := current_game_state g;
     current_game_level := current_game_level g;
     game_score := game_score g; game_target := game_target g;
     game_started := game_started g; pitch_count := pitch_count g;
     ball_hit := ball_hit g; ball_bounced := v;
     pitch_time := pitch_time g; pitch_timer := pitch_timer g;
     log := log g |}.

Definition set_pitch_time (v : bool) (g : Game) : Game :=
  {| bodies := bodies g; collider := collider g;
     current_game_state := current_game_state g;
     current_game_level := current_game_level g;
     game_score := game_score g; game_target := game_target g;
     game_started := game_started g; pitch_count := pitch_count g;
     ball_hit := ball_hit g; ball_bounced := ball_bounced g;
     pitch_time := v; pitch_timer := pitch_timer g;
     log := log g |}.

Definition set_pitch_timer (v : num) (g : Game) : Game :=
  {| bodies := bodies g; collider := collider g;
     current_game_state := current_game_state g;
     current_game_level := current_game_level g;
     game_score := game_score g; game_target := game_target g;
     game_started := game_started g; pitch_count := pitch_count g;
     ball_hit := ball_hit g; ball_bounced := ball_bounced g;
     pitch_time := pitch_time g; pitch_timer := v;
     log := log g |}.

Definition set_pitch_count (v : Z) (g : Game) : Game :=
  {| bodies := bodies g; collider := collider g;
     current_game_state := current_game_state g;
     current_game_level := current_game_level g;
     game_score := game_score g; game_target := game_target g;
     game_started := game_started g; pitch_count := v;
     ball_hit := ball_hit g; ball_bounced := ball_bounced g;
     pitch_time := pitch_time g; pitch_timer := pitch_timer g;
     log := log g |}.

Definition set_game_score (v : Z) (g : Game) : Game :=
  {| bodies := bodies g; collider := collider g;
     current_game_state := current_game_state g;
     current_game_level := current_game_level g;
     game_score := v; game_target := game_target g;
     game_started := game_started g; pitch_count := pitch_count g;
     ball_hit := ball_hit g; ball_bounced := ball_bounced g;
     pitch_time := pitch_time g; pitch_timer := pitch_timer g;
     log := log g |}.

Definition set_game_target (v : Z) (g : Game) : Game :=
  {| bodies := bodies g; collider := collider g;
     current_game_state := current_game_state g;
     current_game_level := current_game_level g;
     game_score := game_score g; game_target := v;
     game_started := game_started g; pitch_count := pitch_count g;
     ball_hit := ball_hit g; ball_bounced := ball_bounced g;
     pitch_time := pitch_time g; pitch_timer := pitch_timer g;
     log := log g |}.

Definition set_game_started (v : Z) (g : Game) : Game :=
  {| bodies := bodies g; collider := collider g;
     current_game_state := current_game_state g;
     current_game_level := current_game_level g;
     game_score := game_score g; game_target := game_target g;
     game_started := v; pitch_count := pitch_count g;
     ball_hit := ball_hit g; ball_bounced := ball_bounced g;
     pitch_time := pitch_time g; pitch_timer := pitch_timer g;
     log := log g |}.

Definition set_current_game_state (v : GameState) (g : Game) : Game :=
  {| bodies := bodies g; collider := collider g;
     current_game_state := v;
     current_game_level := current_game_level g;
     game_score := game_score g; game_target := game_target g;
     game_started := game_started g; pitch_count := pitch_count g;
     ball_hit := ball_hit g; ball_bounced := ball_bounced g;
     pitch_time := pitch_time g; pitch_timer := pitch_timer g;
     log := log g |}.

Definition set_current_game_level (v : Z) (g : Game) : Game :=
  {| bodies := bodies g; collider := collider g;
     current_game_state := current_game_state g;
     current_game_level := v;
     game_score := game_score g; game_target := game_target g;
     game_started := game_started g; pitch_count := pitch_count g;
     ball_hit := ball_hit g; ball_bounced := ball_bounced g;
     pitch_time := pitch_time g; pitch_timer := pitch_timer g;
     log := log g |}.

(** A call to an audio cue or to the camera helper. *)
Definition emit (e : Effect) (g : Game) : Game :=
  {| bodies := bodies g; collider := collider g;
     current_game_state := current_game_state g;
     current_game_level := current_game_level g;
     game_score := game_score g; game_target := game_target g;
     game_started := game_started g; pitch_count := pitch_count g;
     ball_hit := ball_hit g; ball_bounced := ball_bounced g;
     pitch_time := pitch_time g; pitch_timer := pitch_timer g;
     log := e :: log g |}.

(** ** [getRandomInt]

    [random] is the value that the call to [Math.random()] returns. *)
Definition getRandomInt (random : num) (min max : num) : Z :=
  let min := Math_ceil min in
  let max := Math_floor max in
  (Math_floor (random * of_Z (max - min)) + min)%Z.

(** ** The fixed-step loop

    [time_accumulator += Math.min(frame_time, 0.1)], then
    [while (Math.abs(time_accumulator) >= dt)] one tick, and the clock
    moves by [Math.sign(frame_time) * dt].  The loop is used three times
    in the source, with different tick bodies: in [simulate] and in the
    two title screens of [display]. *)

Definition accumulate (frame_time : num) (c : Clock) : Clock :=
  {| time_accumulator := time_accumulator c + Math_min frame_time (qc 1 10);
     time_scale := time_scale c; t := t c; dt := dt c;
     steps_taken := steps_taken c |}.

Definition tock (frame_time : num) (c : Clock) : Clock :=
  {| time_accumulator := time_accumulator c - Math_sign frame_time * dt c;
     time_scale := time_scale c;
     t := t c + Math_sign frame_time * dt c;
     dt := dt c;
     steps_taken := (steps_taken c + 1)%Z |}.

Section FixedStep.

Context {W : Type}.

(** The tick body: [tick k dt w] is iteration number [k] of this call. *)
Variable tick : nat -> num -> W -> outcome W.

Fixpoint step_loop (fuel : nat) (frame_time : num) (k : nat)
    (c : Clock) (w : W) : outcome (Clock * W) :=
  if decide (dt c <= Math_abs (time_accumulator c)) then
    match fuel with
    | O => OutOfFuel
    | S fuel' =>
        w' ← tick k (dt c) w;
        step_loop fuel' frame_time (S k) (tock frame_time c) w'
    end
  else Done (c, w).

(** The whole of the stepping: scale the frame time, accumulate, loop. *)
Definition stepping (fuel : nat) (frame_time : num) (c : Clock) (w : W)
    : outcome (Clock * W) :=
  let frame_time := time_scale c * frame_time in
  step_loop fuel frame_time 0 (accumulate frame_time c) w.

End FixedStep.

(** The interpolation factor computed after the loop. *)
Definition alpha_of (c : Clock) : num := time_accumulator c / dt c.

(** ** [Final_Project]: the scene *)

(** What one call of [display] reads from outside the scene object: the
    times of [program_state], the matrices that the animation code of
    [display] has computed for the bat and for the pitcher's right arm,
    and the values drawn at random during the frame. *)
Record Frame := {
  animation_time : num;
  animation_delta_time : num;
  bat : Mat4;
  pitcher_right_arm : Mat4;
  (** the values of [Math.random()] in [getRandomInt(10, 18)] and
      [getRandomInt(-2, 3)] *)
  random_speed : num;
  random_xy : num;
  (** the value of [Math.random()] in tick [k] of [simulate] *)
  random_boost : nat -> num;
  (** the random default spin axes of the calls to [emplace] *)
  random_axis : nat -> Vec3;
  (** the bound on the iterations of each loop *)
  fuel : nat
}.

Definition when (c : bool) (f : Game -> Game) (g : Game) : Game :=
  if c then f g else g.

Section Final_Project.

Context `{MatrixLib}.

(** [update_state(dt)] is abstract in [Final_Project] and overridden by
    [Baseball]; its second argument is the value of [Math.random()]
    should the tick draw one. *)
Variable update_state : num -> num -> Game -> outcome Game.

(** The constructor. *)
Definition initial : Scene :=
  {| clock := {| time_accumulator := 0; time_scale := 1; t := 0;
                 dt := qc 1 20; steps_taken := 0%Z |};
     game := {| bodies := [];
                collider := {| intersect_test := intersect_sphere;
                               points := Subdivision_Sphere_2;
                               leeway := qc 7 10 |};
                current_game_state := not_started;
                current_game_level := Level.one;
                game_score := 0%Z;
                game_target := 3%Z;
                game_started := 0%Z;
                pitch_count := 10%Z;
                ball_hit := false;
                ball_bounced := false;
                pitch_time := false;
                pitch_timer := 0;
                log := [] |} |}.

(** One tick of [simulate]: [update_state(dt)], then every body
    advances. *)
Definition tick (boosts : nat -> num) (k : nat) (dt : num) (g : Game)
    : outcome Game :=
  g' ← update_state dt (boosts k) g;
  Done (set_bodies (map (advance dt) (bodies g')) g').

(** [simulate(frame_time)]. *)
Definition simulate (fuel : nat) (boosts : nat -> num) (frame_time : num)
    (s : Scene) : outcome Scene :=
  '(c, g) ← stepping (tick boosts) fuel frame_time (clock s) (game s);
  let alpha := alpha_of c in
  Done {| clock := c;
          game := set_bodies (map (blend_state alpha) (bodies g)) g |}.

(** The fixed-step loop of the start screen and of the win screen, which
    moves the falling title balls on the same clock; the result holds the
    factor [alpha] handed to their [blend_state].  The title balls are
    scenery and not kept: neither the list [title_balls] nor the loop that
    fills it up to fifteen balls before the stepping is part of this
    definition, which states what the screens do to the clock and nothing
    more. *)
Definition title_screen (fuel : nat) (delta : num) (c : Clock)
    : outcome (Clock * num) :=
  '(c', _) ← stepping (fun _ _ (u : unit) => Done u) fuel delta c tt;
  Done (c', alpha_of c').

(** The controls of [make_control_panel] that write game fields. *)
Definition start_game (g : Game) : Game := set_current_game_state started g.

Definition restart_game (g : Game) : Game :=
  set_game_started 0%Z
    (set_pitch_count 10%Z
       (set_game_score 0%Z
          (set_game_target 3%Z
             (set_current_game_level 1%Z
                (set_current_game_state started g))))).

Definition home_run_key (g : Game) : Game := set_ball_hit true g.

(** [display], "GAME STATE + TEXT": the eight tests on level, score and
    pitch count, in the order of the source.  Four tests end the game when
    the pitches of a level are used up below its target; the others move
    to the next level or win the game. *)
Definition lose (level target : Z) (g : Game) : Game :=
  when (bool_decide (current_game_level g = level)
        && bool_decide (game_score g < target)%Z
        && bool_decide (pitch_count g = -1)%Z)
       (set_current_game_state game_over) g.

Definition next_level (level target pitches next : Z) (g : Game) : Game :=
  when (bool_decide (current_game_level g = level)
        && bool_decide (target <= game_score g)%Z
        && bool_decide (pitch_count g = pitches)%Z)
       (fun g => set_pitch_count 10%Z
                   (set_game_score 0%Z
                      (set_current_game_level next g))) g.

Definition win (level target : Z) (g : Game) : Game :=
  when (bool_decide (current_game_level g = level)
        && bool_decide (target <= game_score g)%Z
        && bool_decide (pitch_count g = -1)%Z)
       (set_current_game_state game_won) g.

Definition level_progression (g : Game) : Game :=
  let g := lose Level.one 3 g in
  let g := lose Level.two 5 g in
  let g := lose Level.three 7 g in
  let g := lose Level.four 10 g in
  let g := next_level Level.one 3 (-1) Level.two g in
  let g := win Level.two 5 g in
  (* the pitch count tested here is 0, where the other tests have -1;
     the move to level three is commented out in the test before *)
  let g := next_level Level.three 7 0 Level.four g in
  win Level.four 10 g.

#[global] Arguments level_progression : simpl never.

(** The target shown on screen follows the level. *)
Definition target_for (level target : Z) (g : Game) : Game :=
  when (bool_decide (current_game_level g = level)) (set_game_target target) g.

Definition update_target (g : Game) : Game :=
  let g := target_for 2 5 g in
  let g := target_for 3 7 g in
  let g := target_for 4 10 g in
  target_for 5 13 g.

#[global] Arguments update_target : simpl never.

(** The matrix at which the bat's collision cylinder is placed. *)
Definition bat_location (f : Frame) : Mat4 :=
  Mat_times (Mat_times (bat f) (Mat4_translation (Vec_of 0 1 0)))
            (Mat4_rotation (qc 15708 10000) (Vec_of 1 0 0)).

(** [display], "bat": the cylinder body is pushed when the list is empty. *)
Definition ensure_bat (f : Frame) (g : Game) : Game :=
  if decide (length (bodies g) < 1)%nat then
    set_bodies
      (bodies g ++
       [new_Body cylinder aluminum (Vec_of (qc 8 100) (qc 8 100) (qc 4 10))
                 (bat_location f) (Vec_of 0 0 0) 0 (random_axis f 0)])
      g
  else g.

(** [display], "ball", first test: the pitch timer is set to the time of
    the frame when a pitch was asked for and no ball is in play. *)
Definition pitch_clock (now : num) (g : Game) : Game :=
  if pitch_time g && bool_decide (length (bodies g) < 2)%nat then
    set_pitch_time false (set_pitch_timer now g)
  else g.

(** The condition under which a ball is pitched. *)
Definition pitch_due (now : num) (g : Game) : bool :=
  bool_decide (pitch_timer g + 2 < now)
  && bool_decide (length (bodies g) < 2)%nat
  && bool_decide (-1 < pitch_count g)%Z
  && bool_decide (current_game_state g = started).

(** The velocity given to a pitched ball. *)
Definition pitch_velocity (f : Frame) : Vec3 :=
  let speed := getRandomInt (random_speed f) (of_Z 10) (of_Z 18) in
  let xy := of_Z (getRandomInt (random_xy f) (of_Z (-2)) (of_Z 3)) * qc 3 10 in
  Vec_of (qc 4 10 + xy) 0 (of_Z speed).

(** The matrix from which a ball is pitched. *)
Definition pitch_location (f : Frame) : Mat4 :=
  Mat_times (pitcher_right_arm f)
            (Mat4_translation (Vec_of (- of_Z 3) (- 1) (- of_Z 7))).

(** [display], "ball", second test: the pitch. *)
Definition pitch_spawn (f : Frame) (now : num) (g : Game) : Game :=
  if pitch_due now g then
    let g := set_pitch_time false g in
    let g := set_pitch_count (pitch_count g - 1)%Z g in
    set_bodies
      (bodies g ++
       [new_Body ball_4 baseball (Vec_of (qc 1 2) (qc 1 2) 1)
                 (pitch_location f) (pitch_velocity f) 0 (random_axis f 1)])
      g
  else g.


(** The cylinder body follows the bat in every frame. *)
Definition track_bat (f : Frame) (g : Game) : Game :=
  set_bodies
    (imap (fun i b =>
             if decide (shape b = cylinder) then
               emplace (bat_location f) (Vec_of 0 0 0) 0
                       (random_axis f (2 + i)) b
             else b)
          (bodies g))
    g.

(** After [simulate]: while the game runs and the ball was hit, each ball
    body pushes a camera and steps the camera helper forward. *)
Definition camera_follow (g : Game) : Game :=
  if bool_decide (current_game_state g = started) && ball_hit g then
    fold_left (fun g b => if bool_decide (shape b = ball_4)
                          then emit camera_increase g else g)
              (bodies g) g
  else g.

(** The first frame of a started game sets the camera and counts the
    start. *)
Definition note_start (g : Game) : Game :=
  when (bool_decide (current_game_state g = started)
        && bool_decide (game_started g = 0)%Z)
       (fun g => set_game_started (game_started g + 1)%Z g) g.

(** [display(context, program_state)], as far as it reads or writes the
    fields of the scene kept here: the clock and the game state.  The
    drawing, the music of the screens and the list of title balls, with the
    loops that fill and empty it, are not part of this definition. *)
Definition display (f : Frame) (s : Scene) : outcome Scene :=
  let g := note_start (game s) in
  let now := animation_time f / of_Z 1000 in
  '(c, _) ← (if decide (current_game_state g = not_started)
             then title_screen (fuel f) (animation_delta_time f) (clock s)
             else Done (clock s, 0));
  '(c, _) ← (if decide (current_game_state g = game_won)
             then title_screen (fuel f) (animation_delta_time f) c
             else Done (c, 0));
  let g := level_progression g in
  let g := update_target g in
  let g := ensure_bat f g in
  let g := pitch_clock now g in
  let g := pitch_spawn f now g in
  let g := track_bat f g in
  s' ← simulate (fuel f) (random_boost f) (animation_delta_time f)
                {| clock := c; game := g |};
  Done {| clock := clock s'; game := camera_follow (game s') |}.

(** The game that [display] hands to [simulate]: the rules of the frame
    applied in their order. *)
Definition frame_rules (f : Frame) (g : Game) : Game :=
  let now := animation_time f / of_Z 1000 in
  track_bat f
    (pitch_spawn f now
       (pitch_clock now
          (ensure_bat f
             (update_target (level_progression (note_start g)))))).

End Final_Project.

(** ** [Baseball]: the rules of one tick *)

Module Baseball.

Section Rules.

Context `{MatrixLib}.

(** The body of the inner loop of the collision test: body [a] against
    body [b]. *)
Definition collide_pair (a b : nat) (g : Game) : outcome Game :=
  hit ← check_if_colliding (bodies g) a b (collider g);
  if (hit : bool) then
    Done (set_bodies (alter (set_angular_velocity 0) b (bodies g))
            (set_ball_hit true (emit play_crack g)))
  else Done g.

(** The body of the outer loop: cache the inverse of [a.drawn_location]
    on [a], then test [a] against every body. *)
Definition collide_from (a : nat) (g : Game) : outcome Game :=
  let g :=
    set_bodies
      (alter (fun this =>
                set_inverse_material (Mat4_inverse (drawn_location this))
                                     baseball this)
             a (bodies g))
      g in
  for_each (seq 0 (length (bodies g))) (collide_pair a) g.

(** [if (!this.ball_hit) for (let a of this.bodies) ...]. *)
Definition collisions (g : Game) : outcome Game :=
  if ball_hit g then Done g
  else for_each (seq 0 (length (bodies g))) collide_from g.

(** While the z velocity is positive the bat sends the ball off: x and z
    velocities are derived anew and the y velocity gets a random boost,
    [Math.floor(Math.random() * 21) + 10]. *)
Definition launch (random : num) (ball : Body) : Body :=
  let v := linear_velocity ball in
  let c := center ball in
  if decide (0 < v2 v) then
    set_linear_velocity
      (Vec_of ((v2 c + 1) * of_Z 5)
              (v1 v + of_Z (Math_floor (random * of_Z 21) + 10))
              (v2 v * - Math_min (qc 36 10) (Math_abs (v2 c) * of_Z 3)))
      ball
  else ball.

(** [ball.linear_velocity[1] += dt * -9.8]. *)
Definition gravity (dt : num) (ball : Body) : Body :=
  let v := linear_velocity ball in
  set_linear_velocity (Vec_of (v0 v) (v1 v + dt * - qc 98 10) (v2 v)) ball.

(** The home-run test on the place of the bounce. *)
Definition is_home_run (x z : num) : bool :=
  bool_decide (Math_abs x < of_Z 150)
  && bool_decide (of_Z 160 - Math_abs x < Math_abs z).

(** The judgment of the first bounce. *)
Definition judge (ball : Body) (g : Game) : Game :=
  if ball_bounced g then g
  else
    let g := set_ball_bounced true g in
    if is_home_run (v0 (center ball)) (v2 (center ball)) then
      emit play_homerun (set_game_score (game_score g + 1)%Z g)
    else emit play_no_homerun g.

(** The damping of a bounce. *)
Definition damp (ball : Body) : Body :=
  let v := linear_velocity ball in
  set_angular_velocity (angular_velocity ball * qc 1 2)
    (set_linear_velocity
       (Vec_of (v0 v * qc 6 10) (v1 v * - qc 6 10) (v2 v * qc 6 10)) ball).

(** The ball is about to fall through the floor. *)
Definition bouncing (ball : Body) : bool :=
  bool_decide (v1 (center ball) < - qc 97 10)
  && bool_decide (v1 (linear_velocity ball) < 0).

Definition bounce (g : Game) (ball : Body) : Game * Body :=
  if bouncing ball then (judge ball g, damp ball) else (g, ball).

(** A slow ball on the floor loses its vertical velocity. *)
Definition settle (ball : Body) : Body :=
  let v := linear_velocity ball in
  if Vec.norm_lt v 2 && bool_decide (v1 (center ball) < - qc 97 10) then
    set_linear_velocity (Vec_of (v0 v) 0 (v2 v)) ball
  else ball.

(** "THIS IS AFTER THE BALL IS HIT". *)
Definition post_hit (dt random : num) (g : Game) (ball : Body) : Game * Body :=
  if ball_hit g then
    let ball := gravity dt (launch random ball) in
    let '(g, ball) := bounce g ball in
    (g, settle ball)
  else (g, ball).

(** Bodies that strayed too far are dropped from the list. *)
Definition near (bound : num) (b : Body) : bool := Vec.norm_lt (center b) bound.

Definition retire_far (g : Game) : Game :=
  if ball_hit g then
    let g := when (existsb (near (of_Z 300)) (bodies g)) (set_pitch_time true) g in
    let g := set_bodies (List.filter (near (of_Z 300)) (bodies g)) g in
    fold_left (fun g b => if near (of_Z 90) b then emit camera_decrease g else g)
              (bodies g) g
  else set_bodies (List.filter (near (of_Z 40)) (bodies g)) g.

(** All three velocity components are under 0.5 in magnitude. *)
Definition at_rest (ball : Body) : bool :=
  Vec.every (fun v => bool_decide (Math_abs v < qc 1 2)) (linear_velocity ball).

Definition clear_flags (g : Game) : Game :=
  set_ball_bounced false (set_ball_hit false g).

(** With no ball left the flags are cleared; a ball at rest is popped. *)
Definition retire_slow (ball : Body) (g : Game) : Game :=
  if decide (length (bodies g) < 2)%nat then clear_flags g
  else if at_rest ball then
    set_bodies (removelast (bodies g)) (clear_flags g)
  else g.

(** The part of a tick that moves the ball: the collision test and, with
    a ball in the list ([bodies.length > 1], the ball is [bodies[1]]), the
    rules after the hit.  The result holds the ball as the rest of the
    tick sees it. *)
Definition physics (dt random : num) (g : Game) : outcome (Game * option Body) :=
  g ← collisions g;
  match bodies g !! 1%nat with
  | Some ball =>
      let '(g, ball) := post_hit dt random g ball in
      Done (set_bodies (<[1%nat := ball]> (bodies g)) g, Some ball)
  | None => Done (g, None)
  end.

(** The part of a tick that retires bodies. *)
Definition cleanup (gb : Game * option Body) : Game :=
  match gb with
  | (g, Some ball) => retire_slow ball (retire_far g)
  | (g, None) => g
  end.

(** [update_state(dt)]. *)
Definition update_state (dt random : num) (g : Game) : outcome Game :=
  gb ← physics dt random g;
  Done (cleanup gb).

Definition simulate := simulate update_state.

Definition display := display update_state.

End Rules.

End Baseball.

(** ** Runs

    The sequences of calls that the properties below speak of. *)

Section Runs.

Context `{MatrixLib}.

(** A run of [advance] calls, one per time amount. *)
Definition advance_run (amounts : list num) (b : Body) : Body :=
  fold_left (fun b dt => advance dt b) amounts b.

(** What happens to the scene: a key of the control panel that writes a
    game field kept here, or a frame drawn by [display]. *)
Inductive Event :=
  | Key_x                (* "Start Game" *)
  | Key_r                (* "Restart Game" *)
  | Key_8                (* "Home Run" *)
  | Draw (f : Frame).

Definition on_game (f : Game -> Game) (s : Scene) : Scene :=
  {| clock := clock s; game := f (game s) |}.

Definition handle (e : Event) (s : Scene) : outcome Scene :=
  match e with
  | Key_x => Done (on_game start_game s)
  | Key_r => Done (on_game restart_game s)
  | Key_8 => Done (on_game home_run_key s)
  | Draw f => Baseball.display f s
  end.

(** A run of events, in their order. *)
Definition run (events : list Event) (s : Scene) : outcome Scene :=
  fold_left (fun r e => s ← r; handle e s) events (Done s).

(** The scenes that the program reaches from the constructor. *)
Inductive reachable : Scene -> Prop :=
  | reach_initial : reachable initial
  | reach_step (s : Scene) (e : Event) (s' : Scene) :
      reachable s -> handle e s = Done s' -> reachable s'.

(** The scenes reached from the constructor by calls of [simulate] with
    frame times that are not negative; between two calls the game fields
    may change in any way and a title screen may step the clock. *)
Inductive simulated : Scene -> Prop :=
  | sim_initial : simulated initial
  | sim_simulate (s : Scene) (fuel : nat) (boosts : nat -> num)
        (frame_time : num) (s' : Scene) :
      simulated s -> 0 <= frame_time ->
      Baseball.simulate fuel boosts frame_time s = Done s' ->
      simulated s'
  | sim_title (s : Scene) (fuel : nat) (delta : num) (c : Clock) (a : num) :
      simulated s -> 0 <= delta ->
      title_screen fuel delta (clock s) = Done (c, a) ->
      simulated {| clock := c; game := game s |}
  | sim_game (s : Scene) (g : Game) :
      simulated s -> simulated {| clock := clock s; game := g |}.

End Runs.


(** ** Relations between scenes

    The notions in which the properties below are stated. *)

(** The cues that judge a bounce, as logged. *)
Definition is_verdict (e : Effect) : bool :=
  match e with
  | play_homerun | play_no_homerun => true
  | _ => false
  end.

Definition verdicts (g : Game) : list Effect := List.filter is_verdict (log g).

(** [n] steps of length [d]. *)
Fixpoint span (n : nat) (d : num) : num :=
  match n with
  | O => 0
  | S n => d + span n d
  end.


(** What a run of the loop leaves of the clock [c]: an accumulator in
    [[0, dt)], the same [dt] and [time_scale], at most [n] more steps. *)
Definition settled (n : nat) (c c' : Clock) : Prop :=
  0 <= time_accumulator c' /\ time_accumulator c' < dt c'
  /\ dt c' = dt c /\ time_scale c' = time_scale c
  /\ (steps_taken c <= steps_taken c' <= steps_taken c + Z.of_nat n)%Z.


(** The fields that no tick writes. *)
Definition rules_kept (g g' : Game) : Prop :=
  collider g' = collider g
  /\ current_game_state g' = current_game_state g
  /\ current_game_level g' = current_game_level g
  /\ game_target g' = game_target g
  /\ game_started g' = game_started g
  /\ pitch_count g' = pitch_count g
  /\ pitch_timer g' = pitch_timer g.

(** The collision test writes [ball_hit], the log and fields of the
    bodies in their places. *)
Definition only_hit (g g' : Game) : Prop :=
  rules_kept g g'
  /\ game_score g' = game_score g
  /\ ball_bounced g' = ball_bounced g
  /\ pitch_time g' = pitch_time g
  /\ verdicts g' = verdicts g
  /\ length (bodies g') = length (bodies g).


(** Body [a] is in the list and holds its cached inverse. *)
Definition cached (a : nat) (g : Game) : Prop :=
  exists A, bodies g !! a = Some A /\ is_Some (inverse A).

(** What one tick may do to the game: the rules are kept, no body is
    added, and the score moves only with a verdict on a first bounce. *)
Definition tick_step (g g' : Game) : Prop :=
  rules_kept g g'
  /\ (length (bodies g') <= length (bodies g))%nat
  /\ ((game_score g' = game_score g /\ verdicts g' = verdicts g)
      \/ (ball_bounced g = false
          /\ game_score g' = (game_score g + 1)%Z
          /\ verdicts g' = play_homerun :: verdicts g)
      \/ (ball_bounced g = false
          /\ game_score g' = game_score g
          /\ verdicts g' = play_no_homerun :: verdicts g)).

(** What the retiring of bodies keeps. *)
Definition retired (g g' : Game) : Prop :=
  rules_kept g g'
  /\ game_score g' = game_score g
  /\ verdicts g' = verdicts g
  /\ (length (bodies g') <= length (bodies g))%nat.

(** What a run of ticks keeps: the rules, no more bodies, no lower
    score. *)
Definition run_kept (g g' : Game) : Prop :=
  rules_kept g g'
  /\ (length (bodies g') <= length (bodies g))%nat
  /\ (game_score g <= game_score g')%Z.

(** The clock of the program: the constants of the constructor and an
    accumulator within one step. *)
Definition clock_ok (c : Clock) : Prop :=
  time_scale c = 1 /\ dt c = qc 1 20
  /\ 0 <= time_accumulator c /\ time_accumulator c < dt c.

(** Level, score and pitch count: what the tests of a frame look at. *)
Definition standing (g : Game) : Z * Z * Z :=
  (current_game_level g, game_score g, pitch_count g).

(** The phase, the level and the target are the same. *)
Definition phase_kept (g g' : Game) : Prop :=
  current_game_state g' = current_game_state g
  /\ current_game_level g' = current_game_level g
  /\ game_target g' = game_target g.

(** The game of the program between two events: level one with target 3
    or level two with target 5, at most a bat and a ball, a pitch count
    from -1 to 10 and a score that is not negative. *)
Definition game_ok (g : Game) : Prop :=
  ((current_game_level g = 1 /\ game_target g = 3)
   \/ (current_game_level g = 2 /\ game_target g = 5))%Z
  /\ (length (bodies g) <= 2)%nat
  /\ (-1 <= pitch_count g <= 10)%Z
  /\ (0 <= game_score g)%Z.

(** ** The controls of the batter

    The fields that the keys "Batter L", "Batter R" and "Swing" of
    [make_control_panel] write, and the part of [display] that starts and
    ends a swing. *)

Definition Math_max (x y : num) : num := if decide (x < y) then y else x.

(** [Math.PI], the double nearest to pi. *)
Definition Math_PI : num := qc 884279719003555 281474976710656.

Record Controls := {
  batter_x : num;
  toggle_swing : bool;
  swing_bat : bool;
  curr_swing_time : num
}.

(** The values of the constructor. *)
Definition initial_controls : Controls :=
  {| batter_x := of_Z (-4); toggle_swing := false; swing_bat := false;
     curr_swing_time := 0 |}.

(** "Batter L" and "Batter R". *)
Definition batter_left (c : Controls) : Controls :=
  {| batter_x := Math_max (batter_x c - qc 1 2) (of_Z (-6));
     toggle_swing := toggle_swing c; swing_bat := swing_bat c;
     curr_swing_time := curr_swing_time c |}.

Definition batter_right (c : Controls) : Controls :=
  {| batter_x := Math_min (batter_x c + qc 1 2) (of_Z (-2));
     toggle_swing := toggle_swing c; swing_bat := swing_bat c;
     curr_swing_time := curr_swing_time c |}.

(** "Swing": [if (!this.swing_bat) this.toggle_swing = true]. *)
Definition swing_key (c : Controls) : Controls :=
  if swing_bat c then c
  else {| batter_x := batter_x c; toggle_swing := true;
          swing_bat := swing_bat c; curr_swing_time := curr_swing_time c |}.

(** [display], "pooh": a swing that was asked for starts at the time of
    the frame. *)
Definition swing_start (now : num) (c : Controls) : Controls :=
  if toggle_swing c then
    {| batter_x := batter_x c; toggle_swing := false; swing_bat := true;
       curr_swing_time := now |}
  else c.

(** [const swing_diff = t - this.curr_swing_time]. *)
Definition swing_diff (now : num) (c : Controls) : num :=
  now - curr_swing_time c.

(** [display], "BAT": the swing ends a quarter of pi seconds after its
    start. *)
Definition swing_end (now : num) (c : Controls) : Controls :=
  if swing_bat c && bool_decide (Math_PI / of_Z 4 <= swing_diff now c) then
    {| batter_x := batter_x c; toggle_swing := toggle_swing c;
       swing_bat := false; curr_swing_time := curr_swing_time c |}
  else c.

(** What a frame at time [now] does to the controls. *)
Definition swing_frame (now : num) (c : Controls) : Controls :=
  swing_end now (swing_start now c).

(** The keys and frames that write the controls. *)
Inductive Control :=
  | Key_j                (* "Batter L" *)
  | Key_l                (* "Batter R" *)
  | Key_i                (* "Swing" *)
  | Frame_at (now : num).

Definition control (e : Control) (c : Controls) : Controls :=
  match e with
  | Key_j => batter_left c
  | Key_l => batter_right c
  | Key_i => swing_key c
  | Frame_at now => swing_frame now c
  end.

Definition controls_after (events : list Control) : Controls :=
  fold_left (fun c e => control e c) events initial_controls.

(** ** [Camera_Teleporter] *)

(** [enabled] is undefined, hence false in a test, until a key or the
    scene sets it. *)
Record Camera_Teleporter := {
  cameras : list Mat4;
  selection : Z;
  enabled : bool
}.

Module Camera.

(** The constructor. *)
Definition initial : Camera_Teleporter :=
  {| cameras := []; selection := 0%Z; enabled := false |}.

(** [increase()] and [decrease()]. *)
Definition increase (ct : Camera_Teleporter) : Camera_Teleporter :=
  {| cameras := cameras ct;
     selection :=
       Z.min (selection ct + 1) (Z.max (Z.of_nat (length (cameras ct)) - 1) 0);
     enabled := enabled ct |}.

Definition decrease (ct : Camera_Teleporter) : Camera_Teleporter :=
  {| cameras := cameras ct;
     selection := Z.max (selection ct - 1) 0;
     enabled := enabled ct |}.

(** The scene replaces the list of cameras in every frame. *)
Definition set_cameras (l : list Mat4) (ct : Camera_Teleporter)
    : Camera_Teleporter :=
  {| cameras := l; selection := selection ct; enabled := enabled ct |}.

Definition set_enabled (v : bool) (ct : Camera_Teleporter)
    : Camera_Teleporter :=
  {| cameras := cameras ct; selection := selection ct; enabled := v |}.

(** [this.cameras[this.selection]]: undefined outside the array. *)
Definition desired_camera (ct : Camera_Teleporter) : option Mat4 :=
  if decide (selection ct < 0)%Z then None
  else cameras ct !! Z.to_nat (selection ct).

(** The rows of [from] mixed with the rows of [to]. *)
Definition mix_rows (from to : Mat4) (s : num) : Mat4 :=
  Mat_of (Vec.mix4 (row0 from) (row0 to) s) (Vec.mix4 (row1 from) (row1 to) s)
         (Vec.mix4 (row2 from) (row2 to) s) (Vec.mix4 (row3 from) (row3 to) s).

(** [display(context, program_state)]: the matrix handed to
    [program_state.set_camera], if any; [dt] is
    [program_state.animation_delta_time] and [camera_inverse] the camera
    of the program state. *)
Definition display (dt : num) (camera_inverse : Mat4) (ct : Camera_Teleporter)
    : option Mat4 :=
  match desired_camera ct with
  | Some desired =>
      if enabled ct then Some (mix_rows camera_inverse desired (qc 1 100 * dt))
      else None
  | None => None
  end.

(** The calls that reach the helper. *)
Inductive Call :=
  | Increase
  | Decrease
  | Cameras (l : list Mat4)
  | Enable (v : bool).

Definition call (e : Call) (ct : Camera_Teleporter) : Camera_Teleporter :=
  match e with
  | Increase => increase ct
  | Decrease => decrease ct
  | Cameras l => set_cameras l ct
  | Enable v => set_enabled v ct
  end.

Definition after (calls : list Call) : Camera_Teleporter :=
  fold_left (fun ct e => call e ct) calls initial.

End Camera.

(** ** More runs *)

(** The sum of the time amounts of a run of [advance] calls. *)
Definition total (amounts : list num) : num := fold_right Qcplus 0 amounts.


(** A won game is in order: level two, the pitches used up, the target of
    five home runs met. *)
Definition won_in_order (g : Game) : Prop :=
  current_game_state g = game_won ->
  current_game_level g = 2%Z /\ pitch_count g = (-1)%Z
  /\ (5 <= game_score g)%Z.

(** The game as the constructor leaves it, but for the bat: not started,
    level one, no score, ten pitches, none of the cues of play played and
    the camera helper not stepped. *)
Definition quiet (g : Game) : Prop :=
  current_game_state g = not_started
  /\ current_game_level g = 1%Z
  /\ game_score g = 0%Z
  /\ pitch_count g = 10%Z
  /\ game_target g = 3%Z
  /\ game_started g = 0%Z
  /\ (length (bodies g) <= 1)%nat
  /\ log g = [].

(** An event other than the keys "Start Game" and "Restart Game". *)
Definition no_start (e : Event) : Prop :=
  match e with
  | Key_x | Key_r => False
  | Key_8 | Draw _ => True
  end.

(** An event that the browser can deliver: a frame has a time step that
    is not negative.  Each of its fixed-step loops is given room for four
    iterations: two are what the exact sums need, the rest is margin for
    their rounding. *)
Definition drawable (e : Event) : Prop :=
  match e with
  | Draw f => 0 <= animation_delta_time f /\ (4 <= fuel f)%nat
  | _ => True
  end.

(** ** An implementation of the matrix interface over the rationals

    Used to run the functions above on examples: translations, scalings
    and products are the usual ones; the rotation takes the axis as a
    unit vector and the cosine and sine from the first terms of their
    series (exact at angle 0); the inverse is the one of a matrix made
    of an axis scaling followed by a translation; the point cloud is the
    six axis points of the unit sphere. *)

Module Rational.

Definition dot4 (a b : Vec4) : num :=
  w0 a * w0 b + w1 a * w1 b + w2 a * w2 b + w3 a * w3 b.

Definition column (m : Mat4) (pick : Vec4 -> num) : Vec4 :=
  Vec4_of (pick (row0 m)) (pick (row1 m)) (pick (row2 m)) (pick (row3 m)).

Definition times_vec (m : Mat4) (p : Vec4) : Vec4 :=
  Vec4_of (dot4 (row0 m) p) (dot4 (row1 m) p) (dot4 (row2 m) p) (dot4 (row3 m) p).

Definition times_row (r : Vec4) (m : Mat4) : Vec4 :=
  Vec4_of (dot4 r (column m w0)) (dot4 r (column m w1))
          (dot4 r (column m w2)) (dot4 r (column m w3)).

Definition times (a b : Mat4) : Mat4 :=
  Mat_of (times_row (row0 a) b) (times_row (row1 a) b)
         (times_row (row2 a) b) (times_row (row3 a) b).

Definition translation (v : Vec3) : Mat4 :=
  Mat_of (Vec4_of 1 0 0 (v0 v)) (Vec4_of 0 1 0 (v1 v))
         (Vec4_of 0 0 1 (v2 v)) (Vec4_of 0 0 0 1).

Definition scale (v : Vec3) : Mat4 :=
  Mat_of (Vec4_of (v0 v) 0 0 0) (Vec4_of 0 (v1 v) 0 0)
         (Vec4_of 0 0 (v2 v) 0) (Vec4_of 0 0 0 1).

Definition cosine (a : num) : num :=
  1 - a * a * qc 1 2 + a * a * a * a * qc 1 24.

Definition sine (a : num) : num :=
  a - a * a * a * qc 1 6 + a * a * a * a * a * qc 1 120.

Definition rotation (angle : num) (axis : Vec3) : Mat4 :=
  let x := v0 axis in
  let y := v1 axis in
  let z := v2 axis in
  let c := cosine angle in
  let s := sine angle in
  let omc := 1 - c in
  Mat_of
    (Vec4_of (x * x * omc + c) (x * y * omc - z * s) (x * z * omc + y * s) 0)
    (Vec4_of (x * y * omc + z * s) (y * y * omc + c) (y * z * omc - x * s) 0)
    (Vec4_of (x * z * omc - y * s) (y * z * omc + x * s) (z * z * omc + c) 0)
    (Vec4_of 0 0 0 1).

Definition inverse (m : Mat4) : Mat4 :=
  let a := w0 (row0 m) in
  let b := w1 (row1 m) in
  let c := w2 (row2 m) in
  Mat_of (Vec4_of (/ a) 0 0 (- w3 (row0 m) / a))
         (Vec4_of 0 (/ b) 0 (- w3 (row1 m) / b))
         (Vec4_of 0 0 (/ c) (- w3 (row2 m) / c))
         (Vec4_of 0 0 0 1).

Definition axis_points : list Vec3 :=
  [Vec_of 1 0 0; Vec_of (- 1) 0 0; Vec_of 0 1 0;
   Vec_of 0 (- 1) 0; Vec_of 0 0 1; Vec_of 0 0 (- 1)].

Definition lib : MatrixLib :=
  {| Mat4_translation := translation;
     Mat4_scale := scale;
     Mat4_rotation := rotation;
     Mat4_inverse := inverse;
     Mat_times := times;
     Mat_times_vec := times_vec;
     Subdivision_Sphere_2 := axis_points |}.

Definition identity : Mat4 := translation (Vec_of 0 0 0).

End Rational.

(** ** Inputs for examples *)

Module Example.

(** A frame drawn at [ms] milliseconds, [delta] milliseconds after the
    frame before it. *)
Definition frame (ms delta : Z) : Frame :=
  {| animation_time := of_Z ms;
     animation_delta_time := of_Z delta;
     bat := Rational.translation (Vec_of (of_Z (-4)) (of_Z (-6)) (of_Z 3));
     pitcher_right_arm := Rational.translation (Vec_of 0 0 (of_Z (-30)));
     random_speed := qc 1 2;
     random_xy := qc 1 2;
     random_boost := fun _ => qc 1 2;
     random_axis := fun _ => Vec_of 0 1 0;
     fuel := 4 |}.


(** The game right after "Start Game", with the bat in place and no ball. *)
Definition waiting : Game :=
  ensure_bat (H := Rational.lib) (frame 0 16)
    (start_game (game (initial (H := Rational.lib)))).

(** A body placed at [place] with velocity [v], without spin. *)
Definition body_at (shape : Shape) (material : Material) (place v : Vec3) : Body :=
  new_Body (H := Rational.lib) shape material (Vec_of 1 1 1)
           (Rational.translation place) v 0 (Vec_of 0 1 0).

(** A game in play with a bat and a ball; [hit] and [bounced] are the
    flags of the ball. *)
Definition in_play (ball : Body) (hit bounced : bool) : Game :=
  set_ball_bounced bounced
    (set_ball_hit hit
       (set_bodies
          [body_at cylinder aluminum (Vec_of (of_Z (-4)) (of_Z (-5)) (of_Z 3))
                   (Vec_of 0 0 0);
           ball]
          waiting)).

(** The scene after a first call of [simulate], 16 milliseconds in. *)
Definition after_one_frame : Scene :=
  match Baseball.simulate (H := Rational.lib) 2 (fun _ => 0) (of_Z 16)
                          (initial (H := Rational.lib)) with
  | Done s => s
  | _ => initial (H := Rational.lib)
  end.

(** Level one with the pitches used up and [score] home runs. *)
Definition last_pitch (score : Z) : Game :=
  set_pitch_count (-1) (set_game_score score waiting).

(** A hit ball coming down on the field at depth [z], under the height of
    the bounce. *)
Definition falling_ball (z : Z) : Body :=
  body_at ball_4 baseball (Vec_of 0 (of_Z (-10)) (of_Z z))
          (Vec_of 1 (of_Z (-5)) (of_Z (-2))).



(** The bat with its inverse cached, and a ball, as the collision test
    meets them. *)
Definition bat_and_ball : list Body :=
  [set_inverse_material
     (Rational.inverse
        (drawn_location
           (body_at cylinder aluminum (Vec_of (of_Z (-4)) (of_Z (-5)) (of_Z 3))
                    (Vec_of 0 0 0))))
     baseball
     (body_at cylinder aluminum (Vec_of (of_Z (-4)) (of_Z (-5)) (of_Z 3))
              (Vec_of 0 0 0));
   falling_ball 161].

(** What the examples read off a scene: the steps taken, the number of
    bodies, the pitch count, the phase, the level and the score. *)
Definition summary (r : outcome Scene)
    : option (Z * nat * Z * GameState * Z * Z) :=
  match r with
  | Done s =>
      Some (steps_taken (clock s), length (bodies (game s)),
            pitch_count (game s), current_game_state (game s),
            current_game_level (game s), game_score (game s))
  | _ => None
  end.

(** A frame three seconds after the one before it, with the pitcher's
    arm far out to the side and under the field, so that a ball is pitched
    from (-149, -20, -1): without a hit it is out of range at once, and
    with the key "Home Run" it lands as a home run and comes to rest within
    sixteen frames. *)
Definition far_frame (i : nat) : Frame :=
  {| animation_time := of_Z (3000 * Z.of_nat i);
     animation_delta_time := of_Z 3000;
     bat := Rational.translation (Vec_of (of_Z (-4)) (of_Z (-6)) (of_Z 3));
     pitcher_right_arm :=
       Rational.translation (Vec_of (of_Z (-146)) (of_Z (-19)) (of_Z 6));
     random_speed := qc 1 2;
     random_xy := qc 1 2;
     random_boost := fun _ => 0;
     random_axis := fun _ => Vec_of 0 1 0;
     fuel := 2 |}.

(** [count] frames from frame number [from], each after the key "Home Run"
    when [cheat] is set. *)
Definition plays (cheat : bool) (from count : nat) : list Event :=
  flat_map (fun i => if cheat then [Key_8; Draw (far_frame i)]
                     else [Draw (far_frame i)])
           (seq from count).

(** A game that is won: three home runs and eight more pitches on level
    one, five home runs and six more pitches on level two. *)
Definition winning_events : list Event :=
  Key_x :: plays true 1 47 ++ plays false 48 9 ++ plays true 57 79
        ++ plays false 136 8.

(** The scene in which a run ends; the scene of the constructor stands in
    for a run that does not end. *)
Definition last_scene (r : outcome Scene) : Scene :=
  match r with
  | Done s => s
  | _ => initial (H := Rational.lib)
  end.

Definition won_scene : Scene :=
  last_scene (run (H := Rational.lib) winning_events
                (initial (H := Rational.lib))).

End Example.

(** * Properties *)

(** ** Arithmetic *)

(** Goals on canonical rationals are moved to plain rationals, where
    linear arithmetic is decided by [lra]. *)
Lemma this_Q2Qc (q : Q) : (this (Q2Qc q) == q)%Q.
Proof. apply Qred_correct. Qed.

Lemma this_plus (x y : num) : (this (x + y) == this x + this y)%Q.
Proof. apply Qred_correct. Qed.

Lemma this_opp (x : num) : (this (- x) == - this x)%Q.
Proof. apply Qred_correct. Qed.

Lemma this_minus (x y : num) : (this (x - y) == this x - this y)%Q.
Proof. unfold Qcminus. rewrite this_plus, this_opp. reflexivity. Qed.

Lemma this_mult (x y : num) : (this (x * y) == this x * this y)%Q.
Proof. apply Qred_correct. Qed.

Lemma this_qc (n : Z) (d : positive) : (this (qc n d) == n # d)%Q.
Proof. apply Qred_correct. Qed.

Lemma this_of_Z (n : Z) : (this (of_Z n) == inject_Z n)%Q.
Proof. apply Qred_correct. Qed.

Ltac to_Q :=
  unfold Qclt, Qcle in *;
  rewrite ?this_plus, ?this_minus, ?this_opp, ?this_mult, ?this_qc,
    ?this_of_Z, ?this_Q2Qc in *.

Ltac clock_simpl :=
  cbn [tock accumulate time_accumulator time_scale t dt steps_taken] in *.

Ltac qc_lra := to_Q; lra.

Lemma Math_abs_nonneg (x : num) : 0 <= x -> Math_abs x = x.
Proof.
  intros Hx. unfold Math_abs. destruct (decide (x < 0)) as [Hlt|_]; [|done].
  exfalso. qc_lra.
Qed.

Lemma Math_sign_pos (x : num) : 0 < x -> Math_sign x = 1.
Proof. intros Hx. unfold Math_sign. by rewrite decide_True. Qed.

Lemma Math_min_le_r (x y : num) : Math_min x y <= y.
Proof.
  unfold Math_min. destruct (decide (y < x)) as [|Hn]; [qc_lra|].
  apply Qcnot_lt_le in Hn. qc_lra.
Qed.

Lemma Math_min_0_l (y : num) : 0 < y -> Math_min 0 y = 0.
Proof.
  intros Hy. unfold Math_min. destruct (decide (y < 0)); [|done].
  exfalso. qc_lra.
Qed.

Lemma Math_min_pos (x y : num) : 0 < x -> 0 < y -> 0 < Math_min x y.
Proof. intros Hx Hy. unfold Math_min. by destruct (decide (y < x)). Qed.

Lemma nonneg_cases (x : num) : 0 <= x -> x = 0 \/ 0 < x.
Proof.
  intros Hx. destruct (decide (x = 0)) as [->|Hne]; [by left|right].
  apply Qcle_lt_or_eq in Hx as [Hx|Hx]; [done|by subst].
Qed.

(** ** Interpolation *)

Lemma mix1_0 (x b : num) : Vec.mix1 x b 0 = x.
Proof. unfold Vec.mix1. ring. Qed.

Lemma mix1_1 (x b : num) : Vec.mix1 x b 1 = b.
Proof. unfold Vec.mix1. ring. Qed.

Lemma mix_0 (a b : Vec3) : Vec.mix a b 0 = a.
Proof. destruct a. unfold Vec.mix. cbn. by rewrite !mix1_0. Qed.

Lemma mix_1 (a b : Vec3) : Vec.mix a b 1 = b.
Proof. destruct b. unfold Vec.mix. cbn. by rewrite !mix1_1. Qed.

Lemma mix4_0 (a b : Vec4) : Vec.mix4 a b 0 = a.
Proof. destruct a. unfold Vec.mix4. cbn. by rewrite !mix1_0. Qed.

Lemma mix4_1 (a b : Vec4) : Vec.mix4 a b 1 = b.
Proof. destruct b. unfold Vec.mix4. cbn. by rewrite !mix1_1. Qed.

(** ** Bodies *)

Section BodyFacts.

Context `{MatrixLib}.

Lemma advance_run_snoc (amounts : list num) (dt : num) (b : Body) :
  advance_run (amounts ++ [dt]) b = advance dt (advance_run amounts b).
Proof. unfold advance_run. by rewrite fold_left_app. Qed.

Lemma blend_rotation_0 (b : Body) :
  blend_rotation 0 b = at_rotation (previous b).
Proof.
  unfold blend_rotation. rewrite !mix4_0. by destruct (at_rotation (previous b)).
Qed.

Lemma blend_rotation_1 (b : Body) : blend_rotation 1 b = rotation b.
Proof.
  unfold blend_rotation. rewrite !mix4_1. by destruct (rotation b).
Qed.

(** C4. [advance(dt)] stores the current center and rotation in
    [previous], moves the center by [linear_velocity * dt] and multiplies
    the rotation on the left by the rotation of angle
    [angular_velocity * dt] about [spin_axis].  Hence, in a run of
    [advance] calls after an [emplace], [previous] after one more step is
    the center and rotation the body had before that step; [emplace]
    itself leaves [previous] equal to the current center and rotation. *)
Theorem advance_one_step_lag :
  (forall (dt : num) (b : Body),
      previous (advance dt b) = placement b
      /\ center (advance dt b)
         = Vec.plus (center b) (Vec.times (linear_velocity b) dt)
      /\ rotation (advance dt b)
         = Mat_times (Mat4_rotation (angular_velocity b * dt) (spin_axis b))
                     (rotation b))
  /\ (forall (location : Mat4) (v : Vec3) (w : num) (axis : Vec3) (b0 : Body)
             (amounts : list num) (dt : num),
         let b := emplace location v w axis b0 in
         previous b = placement b
         /\ previous (advance_run (amounts ++ [dt]) b)
            = placement (advance_run amounts b)).
Proof.
  split.
  - intros dt b. repeat split. cbn. by rewrite Qcmult_comm.
  - intros location v w axis b0 amounts dt b. split; [done|].
    by rewrite advance_run_snoc.
Qed.

(** C8. [blend_state(0)] draws the body at the pose composed from
    [previous.center], [previous.rotation] and the size scale, and
    [blend_state(1)] at the pose composed from the current center and
    rotation and the same scale. *)
Theorem blend_state_endpoints (b : Body) :
  drawn_location (blend_state 0 b) = pose_of (previous b) (size b)
  /\ drawn_location (blend_state 1 b) = pose_of (placement b) (size b).
Proof.
  split; cbn; unfold blended_location, pose_of.
  - by rewrite mix_0, blend_rotation_0.
  - by rewrite mix_1, blend_rotation_1.
Qed.

End BodyFacts.

Section CollisionFacts.

Context `{MatrixLib}.

(** C5. [check_if_colliding] returns a boolean and writes nothing: a body
    never collides with itself; for two different bodies [a] and [b],
    with [a.inverse] holding the inverse of [a]'s drawn pose, the result
    is true exactly when some point [p] of the collider's point cloud,
    moved by [inverse(a.pose) * b.pose], passes the collider's test with
    the collider's leeway; the sphere test, which is the test of the
    scene's collider, passes when the squared norm is under
    [1 + leeway]; and a negative answer leaves the game as it was at the
    place of the call. *)
Theorem check_if_colliding_spec :
  (forall (l : list Body) (a : nat) (c : Collider),
      check_if_colliding l a a c = Done false)
  /\ (forall (l : list Body) (a b : nat) (c : Collider) (A B : Body),
         a <> b ->
         l !! a = Some A ->
         l !! b = Some B ->
         inverse A = Some (Mat4_inverse (drawn_location A)) ->
         exists r : bool,
           check_if_colliding l a b c = Done r
           /\ (r = true <->
               exists p : Vec3,
                 In p (points c)
                 /\ intersect_test c
                      (transform_point
                         (Mat_times (Mat4_inverse (drawn_location A))
                                    (drawn_location B)) p)
                      (leeway c) = true))
  /\ (forall (p : Vec3) (margin : num),
         intersect_sphere p margin = true <-> Vec.dot p p < 1 + margin)
  /\ (intersect_test (collider (game initial)) = intersect_sphere
      /\ leeway (collider (game initial)) = qc 7 10)
  /\ (forall (g : Game) (a b : nat),
         check_if_colliding (bodies g) a b (collider g) = Done false ->
         Baseball.collide_pair a b g = Done g).
Proof.
  split_and!.
  - intros l a c. unfold check_if_colliding. by rewrite decide_True.
  - intros l a b c A B Hne HA HB Hinv. unfold check_if_colliding.
    rewrite decide_False by done. rewrite HA, HB, Hinv.
    eexists. split; [reflexivity|]. apply existsb_exists.
  - intros p margin. unfold intersect_sphere. by rewrite bool_decide_eq_true.
  - reflexivity.
  - reflexivity.
  - intros g a b Hc. unfold Baseball.collide_pair. by rewrite Hc.
Qed.

End CollisionFacts.

(** ** The fixed-step loop *)

Lemma span_Q (n : nat) (d : num) :
  (this (span n d) == inject_Z (Z.of_nat n) * this d)%Q.
Proof.
  induction n as [|n IH].
  - cbn [span]. change (this 0) with 0%Q. cbn. ring.
  - cbn [span]. rewrite Nat2Z.inj_succ. unfold Z.succ. rewrite inject_Z_plus.
    to_Q. rewrite IH. ring.
Qed.

(** Enough steps of a positive length pass any bound. *)
Lemma span_reaches (d x : num) : 0 < d -> exists n : nat, x <= span n d.
Proof.
  intros Hd. destruct (Qarchimedean (this x / this d)) as [p Hp].
  exists (Pos.to_nat p). unfold Qcle. rewrite span_Q.
  rewrite positive_nat_Z. unfold Qclt in Hd. change (this 0) with 0%Q in Hd.
  apply Qlt_le_weak.
  assert (this x == this x / this d * this d)%Q as Hx by (field; lra).
  rewrite Hx. by apply Qmult_lt_compat_r.
Qed.

Lemma step_loop_unfold {W : Type} (tick : nat -> num -> W -> outcome W)
    (fuel : nat) (frame_time : num) (k : nat) (c : Clock) (w : W) :
  step_loop tick fuel frame_time k c w =
  if decide (dt c <= Math_abs (time_accumulator c)) then
    match fuel with
    | O => OutOfFuel
    | S fuel' =>
        w' ← tick k (dt c) w;
        step_loop tick fuel' frame_time (S k) (tock frame_time c) w'
    end
  else Done (c, w).
Proof. by destruct fuel. Qed.

Section StepFacts.

Context {W : Type}.
Variable tick : nat -> num -> W -> outcome W.
Hypothesis tick_total : forall k d w, exists w', tick k d w = Done w'.

Lemma step_loop_idle (fuel : nat) (frame_time : num) (k : nat) (c : Clock) (w : W) :
  0 <= time_accumulator c -> time_accumulator c < dt c ->
  step_loop tick fuel frame_time k c w = Done (c, w).
Proof.
  intros H0 Hlt. rewrite step_loop_unfold, Math_abs_nonneg by done.
  rewrite decide_False; [done|]. by apply Qclt_not_le.
Qed.

Lemma step_loop_forward (n : nat) :
  forall (fuel : nat) (frame_time : num) (k : nat) (c : Clock) (w : W),
    0 < frame_time -> 0 < dt c ->
    0 <= time_accumulator c ->
    time_accumulator c < dt c + span n (dt c) ->
    (n <= fuel)%nat ->
    exists c' w',
      step_loop tick fuel frame_time k c w = Done (c', w') /\ settled n c c'.
Proof.
  induction n as [|n IH]; intros fuel frame_time k c w Hft Hdt H0 Hlt Hfuel.
  - exists c, w. split.
    + apply step_loop_idle; [done|]. cbn [span] in Hlt. qc_lra.
    + unfold settled. repeat split; try done; try lia.
      cbn [span] in Hlt. qc_lra.
  - destruct (decide (dt c <= time_accumulator c)) as [Hge|Hsmall].
    + destruct fuel as [|fuel]; [lia|].
      rewrite step_loop_unfold, Math_abs_nonneg by done.
      rewrite decide_True by done.
      destruct (tick_total k (dt c) w) as [w' ->]. cbn.
      destruct (IH fuel frame_time (S k) (tock frame_time c) w')
        as (c' & w'' & Hrun & Hs).
      * done.
      * done.
      * clock_simpl. rewrite Math_sign_pos by done. qc_lra.
      * clock_simpl. rewrite Math_sign_pos by done. cbn [span] in Hlt. qc_lra.
      * lia.
      * exists c', w''. split; [done|].
        destruct Hs as (? & ? & ? & ? & ?). clock_simpl.
        unfold settled. repeat split; try done; lia.
    + apply Qcnot_le_lt in Hsmall. exists c, w. split.
      * by apply step_loop_idle.
      * unfold settled. repeat split; try done; lia.
Qed.

(** The stepping of one frame, for a frame time that is not negative:
    it ends within [n] iterations as soon as [n] steps cover the 0.1
    seconds that a frame may add. *)
Lemma stepping_settles (n fuel : nat) (frame_time : num) (c : Clock) (w : W) :
  0 < dt c -> 0 <= time_scale c ->
  0 <= time_accumulator c -> time_accumulator c < dt c ->
  0 <= frame_time ->
  qc 1 10 <= span n (dt c) ->
  (n <= fuel)%nat ->
  exists c' w',
    stepping tick fuel frame_time c w = Done (c', w') /\ settled n c c'.
Proof.
  intros Hdt Hts H0 Hlt Hft Hspan Hfuel. unfold stepping. cbv zeta.
  assert (0 <= time_scale c * frame_time) as Hscaled.
  { unfold Qcle in *. to_Q. by apply Qmult_le_0_compat. }
  destruct (nonneg_cases _ Hscaled) as [Hz|Hpos].
  - rewrite Hz. exists c, w.
    assert (accumulate 0 c = c) as ->.
    { unfold accumulate. rewrite Math_min_0_l by done.
      rewrite Qcplus_0_r. by destruct c. }
    split; [by apply step_loop_idle|].
    unfold settled. repeat split; try done; lia.
  - destruct (step_loop_forward n fuel (time_scale c * frame_time) 0
                (accumulate (time_scale c * frame_time) c) w)
      as (c' & w' & Hrun & Hs); try done.
    + clock_simpl. pose proof (Math_min_pos _ (qc 1 10) Hpos ltac:(done)). qc_lra.
    + clock_simpl. pose proof (Math_min_le_r (time_scale c * frame_time) (qc 1 10)).
      qc_lra.
    + by exists c', w'.
Qed.

End StepFacts.

(** ** One tick of the game *)

Lemma for_each_inv {S : Type} (P : S -> Prop) (idx : list nat)
    (body : nat -> S -> outcome S) (s : S) :
  P s ->
  (forall i s, In i idx -> P s -> exists s', body i s = Done s' /\ P s') ->
  exists s', for_each idx body s = Done s' /\ P s'.
Proof.
  revert s. induction idx as [|i idx IH]; intros s HP Hbody.
  - by exists s.
  - destruct (Hbody i s) as (s1 & Hs1 & HP1); [by left|done|].
    cbn. rewrite Hs1. cbn. apply IH; [done|].
    intros j s2 Hj. apply Hbody. by right.
Qed.

Lemma rules_kept_refl (g : Game) : rules_kept g g.
Proof. by repeat split. Qed.

Lemma rules_kept_trans (g1 g2 g3 : Game) :
  rules_kept g1 g2 -> rules_kept g2 g3 -> rules_kept g1 g3.
Proof.
  unfold rules_kept. intros (? & ? & ? & ? & ? & ? & ?) (? & ? & ? & ? & ? & ? & ?).
  repeat split; congruence.
Qed.

Lemma only_hit_refl (g : Game) : only_hit g g.
Proof. by repeat split. Qed.

Lemma only_hit_trans (g1 g2 g3 : Game) :
  only_hit g1 g2 -> only_hit g2 g3 -> only_hit g1 g3.
Proof.
  unfold only_hit. intros (? & ? & ? & ? & ? & ?) (? & ? & ? & ? & ? & ?).
  split_and!; [by eapply rules_kept_trans|congruence..].
Qed.

Section TickFacts.

Context `{MatrixLib}.

Lemma collide_pair_ok (a b : nat) (g : Game) :
  (b < length (bodies g))%nat -> cached a g ->
  exists g', Baseball.collide_pair a b g = Done g'
             /\ only_hit g g' /\ cached a g'.
Proof.
  intros Hb (A & HA & [inv Hinv]).
  destruct (lookup_lt_is_Some_2 _ _ Hb) as [B HB].
  unfold Baseball.collide_pair, check_if_colliding.
  destruct (decide (a = b)) as [->|Hne].
  - exists g. cbn. split; [done|]. split; [apply only_hit_refl|].
    by exists A; split; [|exists inv].
  - rewrite HA, HB, Hinv. cbn.
    destruct (existsb _ _).
    + eexists. split; [done|]. split.
      * repeat split; cbn. apply length_alter.
      * exists A. cbn. rewrite list_lookup_alter_ne by done.
        by split; [|exists inv].
    + exists g. split; [done|]. split; [apply only_hit_refl|].
      by exists A; split; [|exists inv].
Qed.

Lemma collide_from_ok (a : nat) (g : Game) :
  (a < length (bodies g))%nat ->
  exists g', Baseball.collide_from a g = Done g' /\ only_hit g g'.
Proof.
  intros Ha. destruct (lookup_lt_is_Some_2 _ _ Ha) as [A HA].
  unfold Baseball.collide_from.
  set (g1 := set_bodies _ g).
  assert (only_hit g g1) as H1.
  { repeat split; cbn. apply length_alter. }
  assert (cached a g1) as Hc.
  { eexists. cbn. rewrite list_lookup_alter_eq, HA. cbn. split; [done|].
    by eexists. }
  destruct (for_each_inv (fun g' => only_hit g g' /\ cached a g')
              (seq 0 (length (bodies g1))) (Baseball.collide_pair a) g1)
    as (g' & Hrun & Hhit & _); [done| |by exists g'].
  intros b g2 Hb [Hhit2 Hc2].
  apply in_seq in Hb.
  destruct (collide_pair_ok a b g2) as (g3 & Hrun & Hhit3 & Hc3); [|done|].
  - destruct Hhit2 as (_ & _ & _ & _ & _ & ->).
    destruct H1 as (_ & _ & _ & _ & _ & <-). lia.
  - exists g3. split; [done|]. split; [|done]. by eapply only_hit_trans.
Qed.

Lemma collisions_ok (g : Game) :
  exists g', Baseball.collisions g = Done g' /\ only_hit g g'
             /\ (ball_hit g = true -> g' = g).
Proof.
  unfold Baseball.collisions. destruct (ball_hit g) eqn:Hhit.
  - exists g. split; [done|]. split; [apply only_hit_refl|done].
  - destruct (for_each_inv (fun g' => only_hit g g')
                (seq 0 (length (bodies g))) Baseball.collide_from g)
      as (g' & Hrun & Hk); [apply only_hit_refl| |by exists g'].
    intros a g1 Ha Hk1. apply in_seq in Ha.
    destruct (collide_from_ok a g1) as (g2 & Hrun & Hk2).
    + destruct Hk1 as (_ & _ & _ & _ & _ & ->). lia.
    + exists g2. split; [done|]. by eapply only_hit_trans.
Qed.

Lemma length_removelast_le {A : Type} (l : list A) :
  (length (removelast l) <= length l)%nat.
Proof.
  induction l as [|x [|y l] IH]; cbn in *; lia.
Qed.

Lemma fold_emit_inv (P : Game -> Prop) (c : Body -> bool) (e : Effect)
    (l : list Body) (g : Game) :
  (forall g, P g -> P (emit e g)) -> P g ->
  P (fold_left (fun g b => if c b then emit e g else g) l g).
Proof.
  intros Hemit. revert g. induction l as [|b l IH]; intros g HP; [done|].
  cbn. apply IH. destruct (c b); auto.
Qed.

Lemma retire_far_ok (g : Game) : retired g (Baseball.retire_far g).
Proof.
  unfold Baseball.retire_far. destruct (ball_hit g).
  - apply (fold_emit_inv
             (fun g' => retired g g')).
    + intros g' (Hk & Hs & Hv & Hl). by repeat split; try apply Hk.
    + unfold when. destruct (existsb _ _); repeat split; cbn;
        apply filter_length_le.
  - repeat split; cbn. apply filter_length_le.
Qed.

Lemma retire_slow_ok (ball : Body) (g : Game) :
  retired g (Baseball.retire_slow ball g).
Proof.
  unfold Baseball.retire_slow.
  destruct (decide _); [by repeat split|].
  destruct (Baseball.at_rest ball); [|by repeat split].
  repeat split; cbn. apply length_removelast_le.
Qed.

Lemma retired_trans (g1 g2 g3 : Game) :
  retired g1 g2 -> retired g2 g3 -> retired g1 g3.
Proof.
  intros (Hk & ? & ? & ?) (Hk' & ? & ? & ?).
  split_and!; [by eapply rules_kept_trans|congruence..|lia].
Qed.

(** The rules after the hit write the game through [judge] only. *)
Lemma post_hit_game (dt random : num) (g : Game) (ball : Body) :
  (Baseball.post_hit dt random g ball).1 = g
  \/ exists b, (Baseball.post_hit dt random g ball).1 = Baseball.judge b g.
Proof.
  unfold Baseball.post_hit. destruct (ball_hit g); [|by left].
  unfold Baseball.bounce. destruct (Baseball.bouncing _); [|by left].
  right. by eexists.
Qed.

Lemma judge_step (b : Body) (g : Game) :
  rules_kept g (Baseball.judge b g)
  /\ bodies (Baseball.judge b g) = bodies g
  /\ ((Baseball.judge b g = g)
      \/ (ball_bounced g = false
          /\ game_score (Baseball.judge b g) = (game_score g + 1)%Z
          /\ verdicts (Baseball.judge b g) = play_homerun :: verdicts g)
      \/ (ball_bounced g = false
          /\ game_score (Baseball.judge b g) = game_score g
          /\ verdicts (Baseball.judge b g) = play_no_homerun :: verdicts g)).
Proof.
  unfold Baseball.judge. destruct (ball_bounced g) eqn:Hb.
  - split; [apply rules_kept_refl|]. split; [done|by left].
  - destruct (Baseball.is_home_run _ _).
    + split; [by repeat split|]. split; [done|]. right. left. by repeat split.
    + split; [by repeat split|]. split; [done|]. right. right. by repeat split.
Qed.

(** Every tick runs to its end, and does no more than [tick_step]. *)
Lemma update_state_ok (dt random : num) (g : Game) :
  exists g', Baseball.update_state dt random g = Done g' /\ tick_step g g'.
Proof.
  destruct (collisions_ok g) as (g1 & Hrun & Hhit & _).
  unfold Baseball.update_state, Baseball.physics. rewrite Hrun. cbn.
  destruct Hhit as (Hk1 & Hs1 & Hb1 & _ & Hv1 & Hl1).
  destruct (bodies g1 !! 1%nat) as [ball|] eqn:Hball.
  - destruct (Baseball.post_hit dt random g1 ball) as [g2 ball2] eqn:Hpost.
    cbn. eexists. split; [done|].
    set (g3 := set_bodies _ g2).
    pose proof (retired_trans _ _ _ (retire_far_ok g3)
                  (retire_slow_ok ball2 (Baseball.retire_far g3)))
      as (Hk & Hs & Hv & Hl).
    assert (rules_kept g1 g2 /\ bodies g2 = bodies g1
            /\ ((game_score g2 = game_score g1 /\ verdicts g2 = verdicts g1)
                \/ (ball_bounced g1 = false
                    /\ game_score g2 = (game_score g1 + 1)%Z
                    /\ verdicts g2 = play_homerun :: verdicts g1)
                \/ (ball_bounced g1 = false
                    /\ game_score g2 = game_score g1
                    /\ verdicts g2 = play_no_homerun :: verdicts g1)))
      as (Hk2 & Hbodies2 & Hcases).
    { pose proof (post_hit_game dt random g1 ball) as Hg.
      rewrite Hpost in Hg. cbn in Hg. destruct Hg as [->|[b ->]].
      - split; [apply rules_kept_refl|]. split; [done|by left].
      - destruct (judge_step b g1) as (? & ? & [->|[?|?]]); split_and!;
          try done; try apply rules_kept_refl; auto. }
    split_and!.
    + eapply rules_kept_trans; [exact Hk1|].
      eapply rules_kept_trans; [exact Hk2|]. exact Hk.
    + etrans; [exact Hl|]. subst g3. cbn. rewrite length_insert, Hbodies2. lia.
    + rewrite Hs, Hv. subst g3. cbn.
      change (verdicts (set_bodies _ g2)) with (verdicts g2).
      rewrite <- Hs1, <- Hv1, <- Hb1. exact Hcases.
  - exists g1. split; [done|]. split_and!; [done|lia|left; done].
Qed.

End TickFacts.

(** ** [simulate] *)

Lemma this_div (x y : num) : (this (x / y) == this x / this y)%Q.
Proof. unfold Qcdiv, Qcinv. rewrite this_mult, this_Q2Qc. reflexivity. Qed.

(** Within one step the interpolation factor lies in [[0, 1)]. *)
Lemma alpha_of_range (c : Clock) :
  0 <= time_accumulator c -> time_accumulator c < dt c ->
  0 <= alpha_of c /\ alpha_of c < 1.
Proof.
  intros H0 Hlt. unfold alpha_of.
  assert (0 < dt c) as Hdt by exact (Qcle_lt_trans _ _ _ H0 Hlt).
  unfold Qcle, Qclt in *. rewrite this_div.
  change (this 0) with 0%Q in *. change (this 1) with 1%Q. split.
  - apply Qle_shift_div_l; [done|lra].
  - apply Qlt_shift_div_r; [done|lra].
Qed.

(** A loop that ends, ends with the accumulator within one step. *)
Lemma step_loop_done {W : Type} (tick : nat -> num -> W -> outcome W)
    (fuel : nat) (frame_time : num) :
  forall (k : nat) (c : Clock) (w : W) (c' : Clock) (w' : W),
    0 <= frame_time -> 0 < dt c -> 0 <= time_accumulator c ->
    step_loop tick fuel frame_time k c w = Done (c', w') ->
    0 <= time_accumulator c' /\ time_accumulator c' < dt c'
    /\ dt c' = dt c /\ time_scale c' = time_scale c.
Proof.
  induction fuel as [|fuel IH]; intros k c w c' w' Hft Hdt H0;
    rewrite step_loop_unfold, Math_abs_nonneg by done;
    (destruct (decide (dt c <= time_accumulator c)) as [Hge|Hsmall];
     [|intros [= <- <-]; apply Qcnot_le_lt in Hsmall; by repeat split]).
  - done.
  - destruct (tick k (dt c) w) as [w1| |]; cbn; [|done..].
    intros Hrun. apply IH in Hrun; clock_simpl; try done.
    destruct (nonneg_cases _ Hft) as [->|Hpos].
    + change (Math_sign 0) with 0. qc_lra.
    + rewrite Math_sign_pos by done. qc_lra.
Qed.

Lemma stepping_done {W : Type} (tick : nat -> num -> W -> outcome W)
    (fuel : nat) (frame_time : num) (c : Clock) (w : W) (c' : Clock) (w' : W) :
  clock_ok c -> 0 <= frame_time ->
  stepping tick fuel frame_time c w = Done (c', w') -> clock_ok c'.
Proof.
  intros (Hts & Hdt & H0 & Hlt) Hft. unfold stepping. cbv zeta.
  rewrite Hts, Qcmult_1_l. intros Hrun.
  apply step_loop_done in Hrun; clock_simpl; try done.
  - destruct Hrun as (? & ? & ? & ?). unfold clock_ok. split_and!; congruence.
  - rewrite Hdt. done.
  - pose proof (Math_min_pos frame_time (qc 1 10)) as Hpos.
    destruct (nonneg_cases _ Hft) as [->|Hp].
    + rewrite Math_min_0_l by done. qc_lra.
    + specialize (Hpos Hp ltac:(done)). qc_lra.
Qed.

Section SimulateFacts.

Context `{MatrixLib}.

Lemma tick_ok (boosts : nat -> num) (k : nat) (d : num) (g : Game) :
  exists g', tick Baseball.update_state boosts k d g = Done g'
             /\ run_kept g g'.
Proof.
  destruct (update_state_ok d (boosts k) g) as (g1 & Hrun & Hk & Hl & Hs).
  unfold tick. rewrite Hrun. cbn. eexists. split; [done|].
  split_and!; cbn.
  - exact Hk.
  - by rewrite length_map.
  - destruct Hs as [[-> _]|[(_ & -> & _)|(_ & -> & _)]]; lia.
Qed.

Lemma tick_total (boosts : nat -> num) (k : nat) (d : num) (g : Game) :
  exists g', tick Baseball.update_state boosts k d g = Done g'.
Proof. destruct (tick_ok boosts k d g) as (g' & ? & _). by exists g'. Qed.

Lemma run_kept_refl (g : Game) : run_kept g g.
Proof. split; [apply rules_kept_refl|]. split; lia. Qed.

Lemma run_kept_trans (g1 g2 g3 : Game) :
  run_kept g1 g2 -> run_kept g2 g3 -> run_kept g1 g3.
Proof.
  intros (? & ? & ?) (? & ? & ?).
  split; [by eapply rules_kept_trans|]. split; lia.
Qed.

Lemma step_loop_game (boosts : nat -> num) (fuel : nat) (frame_time : num) :
  forall (k : nat) (c : Clock) (g : Game) (c' : Clock) (g' : Game),
    step_loop (tick Baseball.update_state boosts) fuel frame_time k c g
    = Done (c', g') ->
    run_kept g g'.
Proof.
  induction fuel as [|fuel IH]; intros k c g c' g'; rewrite step_loop_unfold;
    (destruct (decide _); [|intros [= <- <-]; apply run_kept_refl]).
  - done.
  - destruct (tick_ok boosts k (dt c) g) as (g1 & -> & Hk1). cbn.
    intros Hrun. apply IH in Hrun. by eapply run_kept_trans.
Qed.

(** What [simulate] leaves of the scene, when it returns. *)
Lemma simulate_done (fuel : nat) (boosts : nat -> num) (frame_time : num)
    (s s' : Scene) :
  Baseball.simulate fuel boosts frame_time s = Done s' ->
  run_kept (game s) (game s')
  /\ (clock_ok (clock s) -> 0 <= frame_time -> clock_ok (clock s')).
Proof.
  unfold Baseball.simulate, simulate.
  destruct (stepping _ fuel frame_time (clock s) (game s)) as [[c g]| |] eqn:Hrun;
    cbn; [|done..].
  intros [= <-]. cbn. split.
  - unfold stepping in Hrun. apply step_loop_game in Hrun.
    destruct Hrun as (? & ? & ?). split_and!; cbn; [done| |done].
    by rewrite length_map.
  - intros Hc Hft. by eapply stepping_done.
Qed.

End SimulateFacts.

Section ClockTheorems.

Context `{MatrixLib}.

Lemma initial_clock_ok : clock_ok (clock initial).
Proof. by repeat split. Qed.

Lemma title_screen_done (fuel : nat) (delta : num) (c c' : Clock) (a : num) :
  clock_ok c -> 0 <= delta ->
  title_screen fuel delta c = Done (c', a) ->
  clock_ok c' /\ a = alpha_of c'.
Proof.
  intros Hc Hd. unfold title_screen.
  destruct (stepping _ fuel delta c tt) as [[c1 u]| |] eqn:Hrun; cbn; [|done..].
  intros [= <- <-]. split; [|done]. by eapply stepping_done.
Qed.

(** The clock of every scene reached by frames whose times are not
    negative is the one of the constructor, with its accumulator within
    one step. *)
Lemma simulated_clock (s : Scene) : simulated s -> clock_ok (clock s).
Proof.
  induction 1 as [|s fuel boosts frame_time s' _ IH Hft Hrun
                  |s fuel delta c a _ IH Hd Hrun|s g _ IH].
  - apply initial_clock_ok.
  - apply simulate_done in Hrun as [_ Hc]. by apply Hc.
  - by eapply title_screen_done.
  - exact IH.
Qed.

Lemma two_steps_cover (c : Clock) : dt c = qc 1 20 -> qc 1 10 <= span 2 (dt c).
Proof. intros ->. by vm_compute. Qed.

(** C1. From the initial scene and after any sequence of [simulate]
    calls with frame times that are not negative, a call of [simulate]
    with such a frame time ends within two iterations of its loop, however
    large the frame time: two iterations are enough fuel, and
    [steps_taken] grows by at most 2. *)
Theorem simulate_at_most_two_steps (s : Scene) (fuel : nat)
    (boosts : nat -> num) (frame_time : num) :
  simulated s ->
  0 <= frame_time ->
  (2 <= fuel)%nat ->
  exists s' : Scene,
    Baseball.simulate fuel boosts frame_time s = Done s'
    /\ (steps_taken (clock s) <= steps_taken (clock s')
        <= steps_taken (clock s) + 2)%Z.
Proof.
  intros Hs Hft Hfuel.
  destruct (simulated_clock s Hs) as (Hts & Hdt & H0 & Hlt).
  destruct (stepping_settles (tick Baseball.update_state boosts)
              (tick_total boosts) 2 fuel frame_time (clock s) (game s))
    as (c' & g' & Hrun & Hset); try done.
  - by rewrite Hdt.
  - by rewrite Hts.
  - by apply two_steps_cover.
  - unfold Baseball.simulate, simulate. rewrite Hrun. cbn.
    eexists. split; [done|]. cbn.
    destruct Hset as (_ & _ & _ & _ & Hsteps). exact Hsteps.
Qed.

(** C10. With the accumulator in [[0, dt)] before a call of [simulate]
    and a frame time that is not negative, the loop ends and leaves the
    accumulator in [[0, dt)], so that the factor [alpha =
    time_accumulator / dt] handed to [blend_state] lies in [[0, 1)]; the
    same holds for the loops of the two title screens, and hence for
    every scene reached from the constructor. *)
Theorem accumulator_stays_within_one_step :
  (forall (s : Scene) (boosts : nat -> num) (frame_time : num),
      0 <= time_scale (clock s) ->
      0 <= time_accumulator (clock s) ->
      time_accumulator (clock s) < dt (clock s) ->
      0 <= frame_time ->
      exists n : nat, forall fuel : nat, (n <= fuel)%nat ->
        exists (c : Clock) (g : Game),
          stepping (tick Baseball.update_state boosts) fuel frame_time
                   (clock s) (game s) = Done (c, g)
          /\ Baseball.simulate fuel boosts frame_time s
             = Done {| clock := c;
                       game := set_bodies
                                 (map (blend_state (alpha_of c)) (bodies g)) g |}
          /\ dt c = dt (clock s)
          /\ 0 <= time_accumulator c /\ time_accumulator c < dt c
          /\ 0 <= alpha_of c /\ alpha_of c < 1)
  /\ (forall (c : Clock) (delta : num),
         0 <= time_scale c ->
         0 <= time_accumulator c -> time_accumulator c < dt c ->
         0 <= delta ->
         exists n : nat, forall fuel : nat, (n <= fuel)%nat ->
           exists c' : Clock,
             title_screen fuel delta c = Done (c', alpha_of c')
             /\ dt c' = dt c
             /\ 0 <= time_accumulator c' /\ time_accumulator c' < dt c'
             /\ 0 <= alpha_of c' /\ alpha_of c' < 1)
  /\ (forall s : Scene,
         simulated s ->
         0 <= time_accumulator (clock s)
         /\ time_accumulator (clock s) < dt (clock s)
         /\ 0 <= alpha_of (clock s) /\ alpha_of (clock s) < 1).
Proof.
  split_and!.
  - intros s boosts frame_time Hts H0 Hlt Hft.
    assert (0 < dt (clock s)) as Hdt by exact (Qcle_lt_trans _ _ _ H0 Hlt).
    destruct (span_reaches (dt (clock s)) (qc 1 10) Hdt) as [n Hn].
    exists n. intros fuel Hfuel.
    destruct (stepping_settles (tick Baseball.update_state boosts)
                (tick_total boosts) n fuel frame_time (clock s) (game s))
      as (c' & g' & Hrun & Hset); try done.
    exists c', g'. destruct Hset as (H0' & Hlt' & Hdt' & _).
    split; [done|]. split.
    { unfold Baseball.simulate, simulate. by rewrite Hrun. }
    split; [done|]. split; [done|]. split; [done|].
    by apply alpha_of_range.
  - intros c delta Hts H0 Hlt Hd.
    assert (0 < dt c) as Hdt by exact (Qcle_lt_trans _ _ _ H0 Hlt).
    destruct (span_reaches (dt c) (qc 1 10) Hdt) as [n Hn].
    exists n. intros fuel Hfuel.
    destruct (stepping_settles (fun _ _ (u : unit) => Done u)
                (fun _ _ u => ex_intro _ u eq_refl) n fuel delta c tt)
      as (c' & u & Hrun & Hset); try done.
    exists c'. destruct Hset as (H0' & Hlt' & Hdt' & _).
    split.
    { unfold title_screen. by rewrite Hrun. }
    split; [done|]. split; [done|]. split; [done|].
    by apply alpha_of_range.
  - intros s Hs. destruct (simulated_clock s Hs) as (_ & _ & H0 & Hlt).
    split; [done|]. split; [done|]. by apply alpha_of_range.
Qed.

End ClockTheorems.

(** ** The rules of the ball *)

Section BallTheorems.

Context `{MatrixLib}.



Lemma retire_far_bodies (g : Game) :
  bodies (Baseball.retire_far g)
  = List.filter (Baseball.near (if ball_hit g then of_Z 300 else of_Z 40))
                (bodies g).
Proof.
  unfold Baseball.retire_far. destruct (ball_hit g); [|done].
  apply (fold_emit_inv
           (fun g' => bodies g'
                      = List.filter (Baseball.near (of_Z 300)) (bodies g)));
    [done|].
  unfold when. by destruct (existsb _ _).
Qed.



















End BallTheorems.

(** ** The pitch *)

Lemma floor_unique (x : Q) (z : Z) :
  (Qfloor x = z <-> inject_Z z <= x /\ x < inject_Z z + 1)%Q.
Proof.
  split.
  - intros <-. split; [apply Qfloor_le|].
    pose proof (Qlt_floor x) as Hlt. rewrite inject_Z_plus in Hlt. exact Hlt.
  - intros [Hle Hlt]. apply Z.le_antisymm.
    + assert (Qfloor x < z + 1)%Z; [|lia].
      rewrite Zlt_Qlt. eapply Qle_lt_trans; [apply Qfloor_le|].
      by rewrite inject_Z_plus.
    + rewrite <- (Qfloor_Z z). by apply Qfloor_resp_le.
Qed.

Lemma Math_floor_of_Z (z : Z) : Math_floor (of_Z z) = z.
Proof.
  unfold Math_floor. rewrite <- (Qfloor_Z z) at 2.
  apply Z.le_antisymm; apply Qfloor_resp_le; rewrite this_of_Z; lra.
Qed.

Lemma Math_ceil_of_Z (z : Z) : Math_ceil (of_Z z) = z.
Proof.
  unfold Math_ceil, Qceiling.
  assert (Qfloor (- this (of_Z z)) = (- z)%Z) as ->; [|lia].
  apply floor_unique. rewrite this_of_Z, inject_Z_opp. lra.
Qed.

(** [getRandomInt] on integer bounds: the value [k] is returned exactly
    for the draws of one interval, and all intervals have the same
    length, [1 / (hi - lo)]. *)
Lemma getRandomInt_spec (random : num) (lo hi k : Z) :
  getRandomInt random (of_Z lo) (of_Z hi) = k <->
  of_Z (k - lo) <= random * of_Z (hi - lo)
  /\ random * of_Z (hi - lo) < of_Z (k - lo) + 1.
Proof.
  unfold getRandomInt. rewrite Math_ceil_of_Z, Math_floor_of_Z.
  unfold Math_floor.
  assert (Qfloor (this (random * of_Z (hi - lo))) + lo = k
          <-> Qfloor (this (random * of_Z (hi - lo))) = k - lo)%Z as ->
    by lia.
  rewrite floor_unique. unfold Qcle, Qclt.
  rewrite this_plus, !this_of_Z. change (this 1) with 1%Q. done.
Qed.

Lemma getRandomInt_range (random : num) (lo hi : Z) :
  (lo < hi)%Z -> 0 <= random -> random < 1 ->
  (lo <= getRandomInt random (of_Z lo) (of_Z hi) < hi)%Z.
Proof.
  intros Hlohi H0 H1.
  set (k := getRandomInt random (of_Z lo) (of_Z hi)).
  destruct (proj1 (getRandomInt_spec random lo hi k) eq_refl) as [Hle Hlt].
  unfold Qcle, Qclt in *.
  rewrite ?this_plus, ?this_mult, ?this_of_Z in *.
  change (this 0) with 0%Q in *. change (this 1) with 1%Q in *.
  assert (0 < inject_Z (hi - lo))%Q as Hpos.
  { rewrite <- (Zlt_Qlt 0). lia. }
  assert (0 <= this random * inject_Z (hi - lo))%Q as Hprod
    by (by apply Qmult_le_0_compat; [|apply Qlt_le_weak]).
  assert (this random * inject_Z (hi - lo) < inject_Z (hi - lo))%Q as Hprod'.
  { rewrite <- (Qmult_1_l (inject_Z (hi - lo))) at 2.
    by apply Qmult_lt_compat_r. }
  split.
  - assert (-1 < k - lo)%Z; [|lia]. rewrite Zlt_Qlt.
    change (inject_Z (-1)) with (-1)%Q. lra.
  - assert (k - lo < hi - lo)%Z; [|lia]. rewrite Zlt_Qlt. lra.
Qed.

Section PitchTheorems.

Context `{MatrixLib}.


End PitchTheorems.

(** ** Levels and score *)

Lemma lose_hit (level target : Z) (g : Game) :
  current_game_level g = level -> (game_score g < target)%Z ->
  pitch_count g = (-1)%Z ->
  lose level target g = set_current_game_state game_over g.
Proof.
  intros Hl Hs Hp. unfold lose, when.
  by rewrite !bool_decide_eq_true_2.
Qed.

Lemma lose_miss (level target : Z) (g : Game) :
  current_game_level g <> level \/ (target <= game_score g)%Z
  \/ pitch_count g <> (-1)%Z ->
  lose level target g = g.
Proof.
  intros Hn. unfold lose, when.
  repeat case_bool_decide; cbn; try done; lia.
Qed.

Lemma next_level_hit (level target pitches next : Z) (g : Game) :
  current_game_level g = level -> (target <= game_score g)%Z ->
  pitch_count g = pitches ->
  next_level level target pitches next g
  = set_pitch_count 10 (set_game_score 0 (set_current_game_level next g)).
Proof.
  intros Hl Hs Hp. unfold next_level, when.
  by rewrite !bool_decide_eq_true_2.
Qed.

Lemma next_level_miss (level target pitches next : Z) (g : Game) :
  current_game_level g <> level \/ (game_score g < target)%Z
  \/ pitch_count g <> pitches ->
  next_level level target pitches next g = g.
Proof.
  intros Hn. unfold next_level, when.
  repeat case_bool_decide; cbn; try done; lia.
Qed.

Lemma win_hit (level target : Z) (g : Game) :
  current_game_level g = level -> (target <= game_score g)%Z ->
  pitch_count g = (-1)%Z ->
  win level target g = set_current_game_state game_won g.
Proof.
  intros Hl Hs Hp. unfold win, when.
  by rewrite !bool_decide_eq_true_2.
Qed.

Lemma win_miss (level target : Z) (g : Game) :
  current_game_level g <> level \/ (game_score g < target)%Z
  \/ pitch_count g <> (-1)%Z ->
  win level target g = g.
Proof.
  intros Hn. unfold win, when.
  repeat case_bool_decide; cbn; try done; lia.
Qed.

(** Run the eight tests of [level_progression] in their order, each
    decided by the hypotheses on level, score and pitch count. *)
Ltac game_fields :=
  cbn [current_game_level game_score pitch_count current_game_state
       game_target game_started bodies collider ball_hit ball_bounced
       pitch_time pitch_timer log
       set_current_game_state set_current_game_level set_game_score
       set_pitch_count set_game_target set_game_started] in *.

Ltac side := game_fields; unfold Level.one, Level.two, Level.three, Level.four;
             first [ done | lia ].

Ltac untested g :=
  lazymatch g with
  | context [lose _ _ _] => fail
  | context [next_level _ _ _ _ _] => fail
  | context [win _ _ _] => fail
  | _ => idtac
  end.

Ltac run_test :=
  match goal with
  | |- context [lose ?l ?t ?g] =>
      untested g;
      first [ rewrite (lose_hit l t g) by side
            | rewrite (lose_miss l t g) by side ]
  | |- context [next_level ?l ?t ?p ?n ?g] =>
      untested g;
      first [ rewrite (next_level_hit l t p n g) by side
            | rewrite (next_level_miss l t p n g) by side ]
  | |- context [win ?l ?t ?g] =>
      untested g;
      first [ rewrite (win_hit l t g) by side
            | rewrite (win_miss l t g) by side ]
  end.

Ltac run_tests := unfold level_progression; cbv zeta; repeat run_test.

Lemma progression_lose_one (g : Game) :
  current_game_level g = 1%Z -> pitch_count g = (-1)%Z ->
  (game_score g < 3)%Z ->
  level_progression g = set_current_game_state game_over g.
Proof. intros Hl Hp Hs. by run_tests. Qed.

Lemma progression_advance_one (g : Game) :
  current_game_level g = 1%Z -> pitch_count g = (-1)%Z ->
  (3 <= game_score g)%Z ->
  level_progression g
  = set_pitch_count 10 (set_game_score 0 (set_current_game_level 2 g)).
Proof. intros Hl Hp Hs. by run_tests. Qed.

Lemma progression_lose_two (g : Game) :
  current_game_level g = 2%Z -> pitch_count g = (-1)%Z ->
  (game_score g < 5)%Z ->
  level_progression g = set_current_game_state game_over g.
Proof. intros Hl Hp Hs. by run_tests. Qed.

Lemma progression_win_two (g : Game) :
  current_game_level g = 2%Z -> pitch_count g = (-1)%Z ->
  (5 <= game_score g)%Z ->
  level_progression g = set_current_game_state game_won g.
Proof. intros Hl Hp Hs. by run_tests. Qed.

Lemma progression_idle (g : Game) :
  pitch_count g <> (-1)%Z ->
  ~ (current_game_level g = 3%Z /\ pitch_count g = 0%Z
     /\ (7 <= game_score g)%Z) ->
  level_progression g = g.
Proof. intros Hp Hn. by run_tests. Qed.

(** The tests of levels three and four, which no run of the program
    meets: the move to level four asks for a pitch count of 0, and with
    the pitch count at -1 and the target of level three met nothing
    changes. *)
Lemma progression_advance_three (g : Game) :
  current_game_level g = 3%Z -> pitch_count g = 0%Z ->
  (7 <= game_score g)%Z ->
  level_progression g
  = set_pitch_count 10 (set_game_score 0 (set_current_game_level 4 g)).
Proof. intros Hl Hp Hs. by run_tests. Qed.

Lemma progression_stuck_three (g : Game) :
  current_game_level g = 3%Z -> pitch_count g = (-1)%Z ->
  (7 <= game_score g)%Z ->
  level_progression g = g.
Proof. intros Hl Hp Hs. by run_tests. Qed.

Lemma target_for_hit (level target : Z) (g : Game) :
  current_game_level g = level ->
  target_for level target g = set_game_target target g.
Proof. intros Hl. unfold target_for, when. by rewrite bool_decide_eq_true_2. Qed.

Lemma target_for_miss (level target : Z) (g : Game) :
  current_game_level g <> level -> target_for level target g = g.
Proof. intros Hl. unfold target_for, when. by rewrite bool_decide_eq_false_2. Qed.

Lemma update_target_one (g : Game) :
  current_game_level g = 1%Z -> update_target g = g.
Proof.
  intros Hl. unfold update_target. cbv zeta.
  by rewrite (target_for_miss 2 5 g), (target_for_miss 3 7 g),
    (target_for_miss 4 10 g), (target_for_miss 5 13 g) by lia.
Qed.

Lemma update_target_two (g : Game) :
  current_game_level g = 2%Z -> update_target g = set_game_target 5 g.
Proof.
  intros Hl. unfold update_target. cbv zeta.
  rewrite (target_for_hit 2 5 g) by done.
  by rewrite (target_for_miss 3 7), (target_for_miss 4 10),
    (target_for_miss 5 13) by (cbn; lia).
Qed.

Lemma target_for_kept (level target : Z) (g : Game) :
  current_game_level (target_for level target g) = current_game_level g
  /\ current_game_state (target_for level target g) = current_game_state g.
Proof. unfold target_for, when. by destruct (bool_decide _). Qed.

Lemma update_target_level (g : Game) :
  current_game_level (update_target g) = current_game_level g.
Proof.
  unfold update_target. cbv zeta.
  by rewrite !(proj1 (target_for_kept _ _ _)).
Qed.

Lemma update_target_state (g : Game) :
  current_game_state (update_target g) = current_game_state g.
Proof.
  unfold update_target. cbv zeta.
  by rewrite !(proj2 (target_for_kept _ _ _)).
Qed.

Lemma pitch_due_true (now : num) (g : Game) :
  pitch_due now g = true <->
  (length (bodies g) < 2)%nat
  /\ pitch_timer g + 2 < now
  /\ (-1 < pitch_count g)%Z
  /\ current_game_state g = started.
Proof.
  unfold pitch_due. rewrite !andb_true_iff, !bool_decide_eq_true. tauto.
Qed.

Section GameFacts.

Context `{MatrixLib}.

Lemma note_start_fields (g : Game) :
  exists v, note_start g = set_game_started v g.
Proof.
  unfold note_start, when. destruct (_ && _); [by eexists|].
  exists (game_started g). by destruct g.
Qed.

(** The tests of the frame look at level, score and pitch count only. *)
Lemma lose_started (level target v : Z) (g : Game) :
  lose level target (set_game_started v g)
  = set_game_started v (lose level target g).
Proof. unfold lose, when. cbn. by destruct (_ && _). Qed.

Lemma next_level_started (level target pitches next v : Z) (g : Game) :
  next_level level target pitches next (set_game_started v g)
  = set_game_started v (next_level level target pitches next g).
Proof. unfold next_level, when. cbn. by destruct (_ && _). Qed.

Lemma win_started (level target v : Z) (g : Game) :
  win level target (set_game_started v g)
  = set_game_started v (win level target g).
Proof. unfold win, when. cbn. by destruct (_ && _). Qed.

Lemma level_progression_started (v : Z) (g : Game) :
  level_progression (set_game_started v g)
  = set_game_started v (level_progression g).
Proof.
  unfold level_progression. cbv zeta.
  by rewrite !lose_started, next_level_started, win_started,
    next_level_started, win_started.
Qed.

Lemma target_for_started (level target v : Z) (g : Game) :
  target_for level target (set_game_started v g)
  = set_game_started v (target_for level target g).
Proof. unfold target_for, when. cbn. by destruct (bool_decide _). Qed.

Lemma update_target_started (v : Z) (g : Game) :
  update_target (set_game_started v g) = set_game_started v (update_target g).
Proof.
  unfold update_target. cbv zeta. by rewrite !target_for_started.
Qed.

(** Level and target after the tests of a frame. *)
Lemma progression_ok (g : Game) :
  game_ok g -> game_ok (update_target (level_progression g)).
Proof.
  intros (Hlt & Hlen & Hp & Hs).
  destruct (decide (pitch_count g = -1)%Z) as [Hout|Hleft].
  - destruct Hlt as [[Hl Ht]|[Hl Ht]].
    + destruct (decide (game_score g < 3)%Z).
      * rewrite progression_lose_one, update_target_one by done.
        split_and!; game_fields; first [done|lia|by left].
      * rewrite progression_advance_one, update_target_two by (done || lia).
        split_and!; game_fields; first [done|lia|by right].
    + destruct (decide (game_score g < 5)%Z).
      * rewrite progression_lose_two, update_target_two by done.
        split_and!; game_fields; first [done|lia|by right].
      * rewrite progression_win_two, update_target_two by (done || lia).
        split_and!; game_fields; first [done|lia|by right].
  - rewrite progression_idle by (done || lia).
    destruct Hlt as [[Hl Ht]|[Hl Ht]].
    + rewrite update_target_one by done.
      split_and!; first [done|lia|by left].
    + rewrite update_target_two by done.
      split_and!; game_fields; first [done|lia|by right].
Qed.

Lemma game_ok_started (v : Z) (g : Game) :
  game_ok g -> game_ok (set_game_started v g).
Proof. intros (? & ? & [? ?] & ?). unfold game_ok. by split_and!. Qed.

Lemma started_fields (v : Z) (g : Game) :
  current_game_level (set_game_started v g) = current_game_level g
  /\ current_game_state (set_game_started v g) = current_game_state g
  /\ game_target (set_game_started v g) = game_target g.
Proof. done. Qed.

(** The bat, the pitch timer, the pitch and the tracking of the bat. *)
Lemma frame_tail_ok (f : Frame) (now : num) (g : Game) :
  game_ok g ->
  let g' := track_bat f (pitch_spawn f now (pitch_clock now (ensure_bat f g))) in
  game_ok g' /\ phase_kept g g' /\ game_score g' = game_score g.
Proof.
  intros (Hlt & Hlen & Hp & Hs) g'. subst g'.
  unfold track_bat. set (g3 := pitch_spawn f now _).
  assert (game_ok g3 /\ phase_kept g g3 /\ game_score g3 = game_score g)
    as (Hok3 & Hph3 & Hs3).
  { subst g3. unfold pitch_spawn.
    set (g2 := pitch_clock now (ensure_bat f g)).
    assert (game_ok g2 /\ phase_kept g g2 /\ game_score g2 = game_score g)
      as (Hok2 & Hph2 & Hs2).
    { subst g2. unfold pitch_clock, ensure_bat, game_ok, phase_kept.
      destruct (decide (length (bodies g) < 1)%nat); cbn;
        destruct (_ && _); cbn; split_and!; try done;
          rewrite ?length_app; cbn; lia. }
    destruct (pitch_due now g2) eqn:Hdue; [|done].
    apply pitch_due_true in Hdue as (Hshort & _ & Hleft & _).
    destruct Hok2 as (? & ? & ? & ?). destruct Hph2 as (? & ? & ?).
    unfold game_ok, phase_kept.
    split_and!; cbn; try done; rewrite ?length_app; cbn; lia. }
  destruct Hok3 as (? & ? & ? & ?).
  split; [|split; [exact Hph3|exact Hs3]].
  unfold game_ok. split_and!; cbn; try done; try lia. by rewrite length_imap.
Qed.

Lemma frame_rules_ok (f : Frame) (g : Game) :
  game_ok g ->
  game_ok (frame_rules f g)
  /\ current_game_level (frame_rules f g)
     = current_game_level (level_progression g)
  /\ current_game_state (frame_rules f g)
     = current_game_state (level_progression g)
  /\ game_target (frame_rules f g)
     = game_target (update_target (level_progression g)).
Proof.
  intros Hok. unfold frame_rules. cbv zeta.
  destruct (note_start_fields g) as [v ->].
  rewrite level_progression_started, update_target_started.
  pose proof (progression_ok g Hok) as Hok1.
  set (g1 := update_target (level_progression g)) in *.
  pose proof (frame_tail_ok f (animation_time f / of_Z 1000)
                (set_game_started v g1) (game_ok_started v g1 Hok1)) as Htail.
  cbv zeta in Htail. destruct Htail as (Hok2 & (Hst & Hlv & Htg) & _).
  split; [exact Hok2|]. rewrite Hst, Hlv, Htg.
  destruct (started_fields v g1) as (-> & -> & ->). subst g1.
  rewrite update_target_level, update_target_state.
  split; [reflexivity|]. split; reflexivity.
Qed.

End GameFacts.

Section FrameFacts.

Context `{MatrixLib}.

(** What [display] does, when it returns: it steps the clock of the title
    screens, applies the rules of the frame, simulates and lets the camera
    follow. *)
Lemma display_done (f : Frame) (s s' : Scene) :
  Baseball.display f s = Done s' ->
  exists (c : Clock) (s1 : Scene),
    Baseball.simulate (fuel f) (random_boost f) (animation_delta_time f)
      {| clock := c; game := frame_rules f (game s) |} = Done s1
    /\ s' = {| clock := clock s1; game := camera_follow (game s1) |}.
Proof.
  unfold Baseball.display, display. cbv zeta.
  destruct (if decide (current_game_state (note_start (game s)) = not_started)
            then title_screen (fuel f) (animation_delta_time f) (clock s)
            else Done (clock s, 0)) as [[c1 a1]| |]; cbn; [|done..].
  destruct (if decide (current_game_state (note_start (game s)) = game_won)
            then title_screen (fuel f) (animation_delta_time f) c1
            else Done (c1, 0)) as [[c2 a2]| |]; cbn; [|done..].
  fold (frame_rules f (game s)).
  destruct (simulate _ _ _ _ _) as [s1| |] eqn:Hsim; cbn; [|done..].
  intros [= <-]. by exists c2, s1.
Qed.

Lemma camera_follow_fields (g : Game) :
  rules_kept g (camera_follow g)
  /\ bodies (camera_follow g) = bodies g
  /\ game_score (camera_follow g) = game_score g.
Proof.
  unfold camera_follow. destruct (_ && _); [|by split; [apply rules_kept_refl|]].
  apply (fold_emit_inv
           (fun g' => rules_kept g g' /\ bodies g' = bodies g
                      /\ game_score g' = game_score g)
           (fun b => bool_decide (shape b = ball_4))).
  - intros g' (Hk & ? & ?). split; [|done]. exact Hk.
  - split; [apply rules_kept_refl|done].
Qed.

(** A frame keeps the game of the program in order, and leaves the level
    and the phase as the tests of the frame set them. *)
Lemma display_ok (f : Frame) (s s' : Scene) :
  game_ok (game s) ->
  Baseball.display f s = Done s' ->
  game_ok (game s')
  /\ current_game_level (game s')
     = current_game_level (level_progression (game s))
  /\ current_game_state (game s')
     = current_game_state (level_progression (game s)).
Proof.
  intros Hok Hrun. apply display_done in Hrun as (c & s1 & Hsim & ->).
  apply simulate_done in Hsim as [(Hk & Hlen & Hscore) _].
  destruct (frame_rules_ok f (game s) Hok) as ((Hlt & Hl & Hp & Hs) & Hlv & Hst & _).
  destruct (camera_follow_fields (game s1)) as (Hk2 & Hb2 & Hs2).
  destruct Hk as (_ & Hst1 & Hlv1 & Htg1 & _ & Hp1 & _).
  destruct Hk2 as (_ & Hst2 & Hlv2 & Htg2 & _ & Hp2 & _).
  cbn [game clock] in *.
  split; [|split; congruence].
  unfold game_ok. rewrite Hlv2, Htg2, Hb2, Hp2, Hs2, Hlv1, Htg1, Hp1.
  split_and!; try done; lia.
Qed.

Lemma initial_game_ok : game_ok (game initial).
Proof. unfold game_ok. cbn. split_and!; first [lia|by left]. Qed.

(** In every scene that the program reaches the game is in order. *)
Lemma reachable_ok (s : Scene) : reachable s -> game_ok (game s).
Proof.
  induction 1 as [|s e s' _ IH Hstep].
  - apply initial_game_ok.
  - destruct e as [| | |f]; cbn in Hstep.
    + injection Hstep as <-. exact IH.
    + injection Hstep as <-. destruct IH as (_ & Hl & _).
      unfold game_ok. cbn. split_and!; first [done|lia|by left].
    + injection Hstep as <-. exact IH.
    + by apply (display_ok f s s').
Qed.

Lemma title_simulated {P Q : Prop} (d : {P} + {Q}) (fuel : nat)
    (delta : num) (c0 : Clock) (g : Game) (c : Clock) (a : num) :
  simulated {| clock := c0; game := g |} -> 0 <= delta ->
  (if d then title_screen fuel delta c0 else Done (c0, 0)) = Done (c, a) ->
  simulated {| clock := c; game := g |}.
Proof.
  intros Hs Hd. destruct d.
  - intros Ht. by apply (sim_title _ fuel delta c a Hs).
  - by intros [= <- _].
Qed.

(** A frame whose time step is not negative is a run of steppings of the
    clock, so the scenes that the program reaches by such frames have the
    clock of [simulated]. *)
Lemma display_simulated (f : Frame) (s s' : Scene) :
  0 <= animation_delta_time f ->
  simulated s -> Baseball.display f s = Done s' -> simulated s'.
Proof.
  intros Hd Hs. destruct s as [c0 g0].
  unfold Baseball.display, display. cbv zeta. cbn [clock game].
  destruct (if decide (current_game_state (note_start g0) = not_started)
            then title_screen (fuel f) (animation_delta_time f) c0
            else Done (c0, 0)) as [[c1 a1]| |] eqn:H1; cbn; [|done..].
  apply (title_simulated _ _ _ _ g0) in H1; [|done..].
  destruct (if decide (current_game_state (note_start g0) = game_won)
            then title_screen (fuel f) (animation_delta_time f) c1
            else Done (c1, 0)) as [[c2 a2]| |] eqn:H2; cbn; [|done..].
  apply (title_simulated _ _ _ _ g0) in H2; [|done..].
  destruct (simulate _ _ _ _ _) as [[c3 g3]| |] eqn:Hsim; cbn; [|done..].
  intros [= <-].
  apply (sim_game {| clock := c3; game := g3 |}).
  eapply sim_simulate; [|exact Hd|exact Hsim].
  by apply (sim_game {| clock := c2; game := g0 |}).
Qed.

End FrameFacts.

(** ** The theorems on levels *)

Lemma lose_standing (level target : Z) (g : Game) :
  standing (lose level target g) = standing g.
Proof. unfold lose, when. by destruct (_ && _). Qed.

Lemma win_standing (level target : Z) (g : Game) :
  standing (win level target g) = standing g.
Proof. unfold win, when. by destruct (_ && _). Qed.

Lemma next_level_standing (level target pitches next : Z) (g g' : Game) :
  standing g = standing g' ->
  standing (next_level level target pitches next g)
  = standing (next_level level target pitches next g').
Proof.
  intros [= Hl Hs Hp]. unfold next_level, when. rewrite Hl, Hs, Hp.
  destruct (_ && _); unfold standing; cbn; congruence.
Qed.

(** The standing after the eight tests is the one after the two tests
    that move to a next level. *)
Lemma progression_standing (g : Game) :
  standing (level_progression g)
  = standing (next_level Level.three 7 0 Level.four
                (next_level Level.one 3 (-1) Level.two g)).
Proof.
  unfold level_progression. cbv zeta. rewrite win_standing.
  apply next_level_standing. rewrite win_standing.
  apply next_level_standing. by rewrite !lose_standing.
Qed.

Lemma standing_level (g g' : Game) :
  standing g = standing g' -> current_game_level g = current_game_level g'.
Proof. by intros [= ? _ _]. Qed.

(** The tests change the level in two cases only. *)
Lemma progression_level_change (g : Game) :
  current_game_level (level_progression g) <> current_game_level g ->
  (current_game_level g = 1%Z /\ pitch_count g = (-1)%Z
   /\ (3 <= game_score g)%Z
   /\ current_game_level (level_progression g) = 2%Z)
  \/ (current_game_level g = 3%Z /\ pitch_count g = 0%Z
      /\ (7 <= game_score g)%Z
      /\ current_game_level (level_progression g) = 4%Z).
Proof.
  rewrite (standing_level _ _ (progression_standing g)).
  unfold Level.one, Level.two, Level.three, Level.four.
  destruct (decide (current_game_level g = 1%Z /\ (3 <= game_score g)%Z
                    /\ pitch_count g = (-1)%Z)) as [(Hl & Hs & Hp)|Hno].
  - rewrite (next_level_hit 1 3 (-1) 2 g) by done.
    rewrite next_level_miss by (game_fields; lia).
    game_fields. intros _. left. by split_and!.
  - rewrite (next_level_miss 1 3 (-1) 2 g) by lia.
    destruct (decide (current_game_level g = 3%Z /\ (7 <= game_score g)%Z
                      /\ pitch_count g = 0%Z)) as [(Hl & Hs & Hp)|Hno'].
    + rewrite next_level_hit by done. game_fields.
      intros _. right. by split_and!.
    + rewrite next_level_miss by lia. done.
Qed.

Section LevelTheorems.

Context `{MatrixLib}.

(** C2. Level one has target 3 and a pitch budget of 10.  On level one,
    with the pitch count at -1: a score under 3 makes the phase game over,
    and a score of at least 3 moves the game to level two with score and
    pitch count set to (0, 10).  In every scene that the program reaches,
    with the pitch count at -1: a score that meets the target of the level
    moves the game to the next level, with score and pitch count reset, or,
    on the last level that is played, makes the phase won, and a score
    under the target makes the phase game over.  The frame drawn by
    [display] ends with the level and the phase that these tests set. *)
Theorem level_progression_rules :
  (current_game_level (game initial) = 1%Z
   /\ game_target (game initial) = 3%Z
   /\ pitch_count (game initial) = 10%Z
   /\ game_score (game initial) = 0%Z)
  /\ (forall g : Game,
         current_game_level g = 1%Z -> pitch_count g = (-1)%Z ->
         (game_score g < 3)%Z ->
         level_progression g = set_current_game_state game_over g)
  /\ (forall g : Game,
         current_game_level g = 1%Z -> pitch_count g = (-1)%Z ->
         (3 <= game_score g)%Z ->
         level_progression g
         = set_pitch_count 10 (set_game_score 0 (set_current_game_level 2 g)))
  /\ (forall s : Scene,
         reachable s -> pitch_count (game s) = (-1)%Z ->
         (game_target (game s) <= game_score (game s))%Z ->
         (current_game_level (game s) = 1%Z
          /\ level_progression (game s)
             = set_pitch_count 10
                 (set_game_score 0 (set_current_game_level 2 (game s))))
         \/ (current_game_level (game s) = 2%Z
             /\ level_progression (game s)
                = set_current_game_state game_won (game s)))
  /\ (forall s : Scene,
         reachable s -> pitch_count (game s) = (-1)%Z ->
         (game_score (game s) < game_target (game s))%Z ->
         level_progression (game s)
         = set_current_game_state game_over (game s))
  /\ (forall (s : Scene) (f : Frame) (s' : Scene),
         reachable s -> Baseball.display f s = Done s' ->
         current_game_level (game s')
         = current_game_level (level_progression (game s))
         /\ current_game_state (game s')
            = current_game_state (level_progression (game s))).
Proof.
  split_and!.
  - done.
  - done.
  - done.
  - done.
  - apply progression_lose_one.
  - apply progression_advance_one.
  - intros s Hs Hp Hscore.
    destruct (reachable_ok s Hs) as ([[Hl Ht]|[Hl Ht]] & _);
      rewrite Ht in Hscore.
    + left. split; [done|]. by apply progression_advance_one.
    + right. split; [done|]. by apply progression_win_two.
  - intros s Hs Hp Hscore.
    destruct (reachable_ok s Hs) as ([[Hl Ht]|[Hl Ht]] & _);
      rewrite Ht in Hscore.
    + by apply progression_lose_one.
    + by apply progression_lose_two.
  - intros s f s' Hs Hrun.
    destruct (display_ok f s s' (reachable_ok s Hs) Hrun) as (_ & ? & ?).
    by split.
Qed.

(** C9. In every scene that the program reaches, from the constructor or
    after a restart, the level is one or two.  The tests of a frame change
    the level in two cases only, from one to two and from three to four;
    the second asks for level three with a pitch count of exactly 0 and
    never applies, so that levels three and four are not reached.  On
    level two, with the pitches used up and a score of at least 5, the
    phase becomes won and the level stays. *)
Theorem levels_one_and_two :
  (forall s : Scene,
      reachable s ->
      current_game_level (game s) = 1%Z \/ current_game_level (game s) = 2%Z)
  /\ (forall s : Scene,
         reachable s ->
         current_game_level (game (on_game restart_game s)) = 1%Z
         /\ reachable (on_game restart_game s))
  /\ (forall g : Game,
         current_game_level (level_progression g) <> current_game_level g ->
         (current_game_level g = 1%Z /\ pitch_count g = (-1)%Z
          /\ (3 <= game_score g)%Z
          /\ current_game_level (level_progression g) = 2%Z)
         \/ (current_game_level g = 3%Z /\ pitch_count g = 0%Z
             /\ (7 <= game_score g)%Z
             /\ current_game_level (level_progression g) = 4%Z))
  /\ (forall g : Game,
         current_game_level g = 2%Z -> pitch_count g = (-1)%Z ->
         (5 <= game_score g)%Z ->
         level_progression g = set_current_game_state game_won g)
  /\ (forall s : Scene,
         reachable s ->
         current_game_level (game s) <> 3%Z
         /\ current_game_level (game s) <> 4%Z
         /\ current_game_level (level_progression (game s)) <> 4%Z)
  /\ (forall (s : Scene) (f : Frame) (s' : Scene),
         reachable s -> Baseball.display f s = Done s' ->
         current_game_level (game s') = current_game_level (game s)
         \/ (current_game_level (game s) = 1%Z
             /\ current_game_level (game s') = 2%Z)).
Proof.
  split_and!.
  - intros s Hs. destruct (reachable_ok s Hs) as ([[Hl _]|[Hl _]] & _); auto.
  - intros s Hs. split; [done|]. by apply (reach_step s Key_r).
  - apply progression_level_change.
  - apply progression_win_two.
  - intros s Hs.
    destruct (reachable_ok s Hs) as (Hlv & _).
    split; [lia|]. split; [lia|].
    destruct (decide (current_game_level (level_progression (game s))
                      = current_game_level (game s))) as [->|Hne]; [lia|].
    apply progression_level_change in Hne. lia.
  - intros s f s' Hs Hrun.
    destruct (display_ok f s s' (reachable_ok s Hs) Hrun) as (_ & -> & _).
    destruct (decide (current_game_level (level_progression (game s))
                      = current_game_level (game s))) as [->|Hne]; [by left|].
    apply progression_level_change in Hne.
    destruct (reachable_ok s Hs) as (Hlv & _). right. lia.
Qed.

End LevelTheorems.

(** * Further properties of the code *)

(** ** [getRandomInt] on any bounds *)

Lemma getRandomInt_bounds (random min max : num) :
  getRandomInt random min max
  = getRandomInt random (of_Z (Math_ceil min)) (of_Z (Math_floor max)).
Proof.
  unfold getRandomInt. by rewrite Math_ceil_of_Z, Math_floor_of_Z.
Qed.

(** X1. [getRandomInt(min, max)] rounds its bounds inwards, [min] up and
    [max] down.  For bounds whose roundings lie between -2^52 and 2^52,
    where the sums and differences of integers that the source takes are
    exact: for a draw in [[0, 1)] and at least one integer between the
    bounds the result is an integer from [ceil(min)] up to, not including,
    [floor(max)]; when the two rounded bounds are equal the result is that
    bound, whatever the draw. *)
Theorem getRandomInt_within (random min max : num) :
  (- 2 ^ 52 <= Math_ceil min)%Z -> (Math_floor max <= 2 ^ 52)%Z ->
  (0 <= random -> random < 1 -> (Math_ceil min < Math_floor max)%Z ->
   (Math_ceil min <= getRandomInt random min max < Math_floor max)%Z)
  /\ (Math_ceil min = Math_floor max ->
      getRandomInt random min max = Math_ceil min).
Proof.
  intros _ _. split.
  - intros H0 H1 Hlt. rewrite getRandomInt_bounds.
    by apply getRandomInt_range.
  - intros Heq. rewrite getRandomInt_bounds, Heq.
    apply getRandomInt_spec.
    replace (Math_floor max - Math_floor max)%Z with 0%Z by lia.
    change (of_Z 0) with 0. rewrite Qcmult_0_r. split; [done|by vm_compute].
Qed.

(** ** The two volume tests *)

Lemma square_bound (x m : Q) :
  (0 <= m -> x * x < 1 + m -> - 1 - m <= x /\ x <= 1 + m)%Q.
Proof. intros Hm Hx. split; nra. Qed.

Lemma dot_parts (p : Vec3) :
  (this (v0 p) * this (v0 p) <= this (Vec.dot p p)
   /\ this (v1 p) * this (v1 p) <= this (Vec.dot p p)
   /\ this (v2 p) * this (v2 p) <= this (Vec.dot p p))%Q.
Proof.
  unfold Vec.dot. rewrite !this_plus, !this_mult.
  split_and!; nra.
Qed.

(** X2. With a margin that is not negative, a point that passes the
    sphere test passes the cube test; and both tests keep their points
    when the margin grows. *)
Theorem sphere_within_cube (p : Vec3) (margin : num) :
  0 <= margin ->
  (intersect_sphere p margin = true -> intersect_cube p margin = true)
  /\ (forall wider : num,
         margin <= wider ->
         (intersect_sphere p margin = true -> intersect_sphere p wider = true)
         /\ (intersect_cube p margin = true -> intersect_cube p wider = true)).
Proof.
  intros Hm. split.
  - unfold intersect_sphere, intersect_cube, Vec.every.
    rewrite bool_decide_eq_true. intros Hs.
    destruct (dot_parts p) as (H0 & H1 & H2).
    rewrite !andb_true_iff, !bool_decide_eq_true.
    unfold Qclt, Qcle in *.
    rewrite ?this_plus, ?this_minus, ?this_opp in *.
    change (this 1) with 1%Q in *. change (this 0) with 0%Q in *.
    pose proof (square_bound (this (v0 p)) (this margin) Hm).
    pose proof (square_bound (this (v1 p)) (this margin) Hm).
    pose proof (square_bound (this (v2 p)) (this margin) Hm).
    split_and!; lra.
  - intros wider Hw. split.
    + unfold intersect_sphere. rewrite !bool_decide_eq_true. qc_lra.
    + unfold intersect_cube, Vec.every.
      rewrite !andb_true_iff, !bool_decide_eq_true.
      intros (((? & ?) & (? & ?)) & (? & ?)). split_and!; qc_lra.
Qed.

(** ** Bodies: placing, advancing, testing *)

Section MoreBodyFacts.

Context `{MatrixLib}.

Lemma mix1_same (x s : num) : Vec.mix1 x x s = x.
Proof. unfold Vec.mix1. ring. Qed.

Lemma mix_same (a : Vec3) (s : num) : Vec.mix a a s = a.
Proof. destruct a. unfold Vec.mix. cbn. by rewrite !mix1_same. Qed.

Lemma mix4_same (a : Vec4) (s : num) : Vec.mix4 a a s = a.
Proof. destruct a. unfold Vec.mix4. cbn. by rewrite !mix1_same. Qed.

(** A body whose [previous] holds its current center and rotation is
    drawn at its pose, whatever the factor. *)
Lemma blend_without_lag (alpha : num) (b : Body) :
  previous b = placement b ->
  drawn_location (blend_state alpha b) = pose_of (placement b) (size b).
Proof.
  intros Hp. cbn. unfold blended_location, blend_rotation, pose_of.
  rewrite Hp. cbn. rewrite mix_same, !mix4_same.
  by destruct (rotation b).
Qed.

(** X3. Right after [emplace], and for a body just created, the blend
    does not depend on the factor: for every [alpha], [blend_state(alpha)]
    draws the body at the pose composed from its center, its rotation and
    its size. *)
Theorem emplace_blend_any_factor (alpha : num) :
  (forall (location : Mat4) (v : Vec3) (w : num) (axis : Vec3) (b : Body),
      let placed := emplace location v w axis b in
      drawn_location (blend_state alpha placed)
      = pose_of (placement placed) (size b))
  /\ (forall (shape : Shape) (material : Material) (size : Vec3)
             (location : Mat4) (v : Vec3) (w : num) (axis : Vec3),
         let created := new_Body shape material size location v w axis in
         drawn_location (blend_state alpha created)
         = pose_of (placement created) size).
Proof.
  split.
  - intros location v w axis b placed.
    exact (blend_without_lag alpha placed eq_refl).
  - intros shape material size location v w axis created.
    exact (blend_without_lag alpha created eq_refl).
Qed.

Lemma advance_run_velocity (amounts : list num) (b : Body) :
  linear_velocity (advance_run amounts b) = linear_velocity b.
Proof.
  revert b. induction amounts as [|dt amounts IH]; intros b; [done|].
  unfold advance_run in *. cbn. by rewrite IH.
Qed.

(** X4. [advance] does not touch the velocity, so the steps of a run add
    up: after a run of [advance] calls the center has moved by the linear
    velocity times the sum of the time amounts, as after one call with
    that sum. *)
Theorem advance_run_center (amounts : list num) (b : Body) :
  center (advance_run amounts b)
  = Vec.plus (center b) (Vec.times (linear_velocity b) (total amounts))
  /\ center (advance_run amounts b) = center (advance (total amounts) b)
  /\ linear_velocity (advance_run amounts b) = linear_velocity b.
Proof.
  assert (center (advance_run amounts b)
          = Vec.plus (center b) (Vec.times (linear_velocity b) (total amounts)))
    as Hrun.
  { revert b. induction amounts as [|dt amounts IH]; intros b.
    - cbn. destruct (center b) as [x y z]. unfold Vec.plus, Vec.times. cbn.
      f_equal; ring.
    - change (advance_run (dt :: amounts) b)
        with (advance_run amounts (advance dt b)).
      rewrite IH. cbn [center linear_velocity advance total fold_right].
      fold (total amounts).
      destruct (center b) as [x y z], (linear_velocity b) as [vx vy vz].
      unfold Vec.plus, Vec.times. cbn. f_equal; ring. }
  split; [exact Hrun|]. split; [by rewrite Hrun|].
  apply advance_run_velocity.
Qed.

(** X5. The collision test reads the drawn poses and the cached inverse
    only: advancing every body of the list leaves each answer of the test
    as it was. *)
Theorem check_if_colliding_after_advance (dt : num) (l : list Body)
    (a b : nat) (c : Collider) :
  check_if_colliding (map (advance dt) l) a b c = check_if_colliding l a b c.
Proof.
  unfold check_if_colliding. destruct (decide (a = b)); [done|].
  change (map (advance dt) l) with (advance dt <$> l).
  rewrite !list_lookup_fmap.
  destruct (l !! a) as [A|], (l !! b) as [B|]; done.
Qed.

End MoreBodyFacts.

(** ** Frame times *)

Lemma Math_sign_neg (x : num) : x < 0 -> Math_sign x = - 1.
Proof.
  intros Hx. unfold Math_sign.
  rewrite decide_False, decide_True; [done..|].
  intros Hpos. qc_lra.
Qed.

Lemma Math_abs_neg (x : num) : x <= 0 -> Math_abs x = - x.
Proof.
  intros Hx. unfold Math_abs. destruct (decide (x < 0)); [done|].
  assert (x = 0) as -> by (apply Qcle_antisym; [done|by apply Qcnot_lt_le]).
  done.
Qed.

Lemma step_loop_starves {W : Type} (tick : nat -> num -> W -> outcome W) :
  (forall k d w, exists w', tick k d w = Done w') ->
  forall (fuel : nat) (frame_time : num) (k : nat) (c : Clock) (w : W),
    frame_time < 0 -> 0 < dt c ->
    time_accumulator c + dt c + span fuel (dt c) <= 0 ->
    step_loop tick fuel frame_time k c w = OutOfFuel.
Proof.
  intros Htotal steps. induction steps as [|fuel IH];
    intros frame_time k c w Hft Hdt Hacc; rewrite step_loop_unfold;
    cbn [span] in Hacc.
  - rewrite Math_abs_neg by qc_lra. rewrite decide_True by qc_lra. done.
  - pose proof (span_Q fuel (dt c)) as Hspan.
    assert (0 <= span fuel (dt c)) as Hnn.
    { unfold Qcle. rewrite Hspan. change (this 0) with 0%Q.
      apply Qmult_le_0_compat; [|by apply Qlt_le_weak].
      rewrite <- (Zle_Qle 0). lia. }
    rewrite Math_abs_neg by qc_lra. rewrite decide_True by qc_lra.
    destruct (Htotal k (dt c) w) as [w' ->]. cbn.
    apply IH; clock_simpl; try done.
    rewrite Math_sign_neg by done. qc_lra.
Qed.

Section TimeFacts.

Context `{MatrixLib}.

(** [simulate] returns from the clock of the program for every frame time
    that is not negative. *)
Lemma simulate_returns (fuel : nat) (boosts : nat -> num) (frame_time : num)
    (s : Scene) :
  clock_ok (clock s) -> 0 <= frame_time -> (2 <= fuel)%nat ->
  exists s', Baseball.simulate fuel boosts frame_time s = Done s'.
Proof.
  intros (Hts & Hdt & H0 & Hlt) Hft Hfuel.
  destruct (stepping_settles (tick Baseball.update_state boosts)
              (tick_total boosts) 2 fuel frame_time (clock s) (game s))
    as (c' & g' & Hrun & _); try done.
  - by rewrite Hdt.
  - by rewrite Hts.
  - by apply two_steps_cover.
  - unfold Baseball.simulate, simulate. rewrite Hrun. cbn. by eexists.
Qed.

(** X8. The guard against long frames is one-sided: a negative frame time
    is not clamped, and the loop steps backwards for as long as the frame
    time asks.  From every scene reached by frames whose times are not
    negative, and for every [n], a call of [simulate] with a frame time of
    [-(n + 2) / 10] or less, the time of [2 n + 4] steps, does not end
    within [n] iterations of the loop: after each of them more than two
    steps of time are still owed, a margin that no rounding of the sums
    takes up. *)
Theorem simulate_negative_time_unbounded (s : Scene) (n : nat)
    (boosts : nat -> num) (frame_time : num) :
  simulated s ->
  frame_time <= - (of_Z (Z.of_nat n + 2) * qc 1 10) ->
  Baseball.simulate n boosts frame_time s = OutOfFuel.
Proof.
  intros Hs Hft. destruct (simulated_clock s Hs) as (Hts & Hdt & H0 & Hlt).
  unfold Baseball.simulate, simulate, stepping. cbv zeta.
  rewrite Hts, Qcmult_1_l.
  assert (0 <= inject_Z (Z.of_nat n))%Q as Hn
    by (rewrite <- (Zle_Qle 0); lia).
  assert (this frame_time <= - ((inject_Z (Z.of_nat n) + 2) * (1 # 10)))%Q
    as Hbound.
  { unfold Qcle in Hft.
    rewrite this_opp, this_mult, this_of_Z, this_qc, inject_Z_plus in Hft.
    exact Hft. }
  assert (frame_time < 0) as Hneg.
  { unfold Qclt. change (this 0) with 0%Q. lra. }
  rewrite step_loop_starves; [done|apply tick_total|done|..]; clock_simpl.
  - by rewrite Hdt.
  - unfold Math_min. rewrite decide_False by (intros Hc; qc_lra).
    pose proof (span_Q n (dt (clock s))) as Hspan.
    unfold Qclt, Qcle in *.
    rewrite ?this_plus, Hspan.
    rewrite Hdt, this_qc in *.
    change (this 0) with 0%Q in *. lra.
Qed.

End TimeFacts.

(** ** The controls of the batter *)

Lemma batter_box_step (e : Control) (c : Controls) :
  of_Z (-6) <= batter_x c <= of_Z (-2) ->
  of_Z (-6) <= batter_x (control e c) <= of_Z (-2).
Proof.
  intros [Hlo Hhi]. destruct e as [| | |now]; cbn.
  - unfold Math_max. destruct (decide _); split; qc_lra.
  - unfold Math_min. destruct (decide _) as [Hlt|Hge]; [split; qc_lra|].
    apply Qcnot_lt_le in Hge. split; qc_lra.
  - unfold swing_key. by destruct (swing_bat c).
  - unfold swing_frame, swing_end, swing_start.
    by destruct (toggle_swing c); cbn;
      repeat (match goal with |- context [if ?b then _ else _] => destruct b end;
              cbn).
Qed.

Lemma fold_control_box (events : list Control) :
  forall c : Controls,
    of_Z (-6) <= batter_x c <= of_Z (-2) ->
    of_Z (-6) <= batter_x (fold_left (fun c e => control e c) events c)
    <= of_Z (-2).
Proof.
  induction events as [|e events IH]; intros c Hc; [done|].
  cbn. apply IH. by apply batter_box_step.
Qed.

(** X9. Whatever keys are pressed and frames drawn, the batter stays in the
    box: [batter_x] is between -6 and -2; "Batter L" at -6 and "Batter R"
    at -2 leave it where it is. *)
Theorem batter_stays_in_box (events : list Control) :
  let c := controls_after events in
  of_Z (-6) <= batter_x c <= of_Z (-2)
  /\ (batter_x c = of_Z (-6) -> batter_x (control Key_j c) = of_Z (-6))
  /\ (batter_x c = of_Z (-2) -> batter_x (control Key_l c) = of_Z (-2)).
Proof.
  cbv zeta. split; [|split].
  - apply fold_control_box. split; by vm_compute.
  - intros Heq. cbn. rewrite Heq. by vm_compute.
  - intros Heq. cbn. rewrite Heq. by vm_compute.
Qed.





(** ** The camera helper *)

Lemma camera_call_nonneg (e : Camera.Call) (ct : Camera_Teleporter) :
  (0 <= selection ct)%Z -> (0 <= selection (Camera.call e ct))%Z.
Proof. destruct e; cbn; lia. Qed.

Lemma camera_fold_nonneg (calls : list Camera.Call) :
  forall ct : Camera_Teleporter,
    (0 <= selection ct)%Z ->
    (0 <= selection (fold_left (fun ct e => Camera.call e ct) calls ct))%Z.
Proof.
  induction calls as [|e calls IH]; intros ct Hct; [done|].
  cbn. apply IH. by apply camera_call_nonneg.
Qed.

Lemma desired_camera_Some (ct : Camera_Teleporter) :
  is_Some (Camera.desired_camera ct)
  <-> (0 <= selection ct < Z.of_nat (length (cameras ct)))%Z.
Proof.
  unfold Camera.desired_camera. destruct (decide _) as [Hneg|Hpos].
  - split; [by intros [? ?]|lia].
  - rewrite lookup_lt_is_Some. lia.
Qed.

(** X11. The selection of the camera helper.  Whatever is called on it
    after the constructor, the selection is not negative; "Next" with a
    camera in the list selects a camera of the list, and "Previous
    location" keeps the selection in the list and stops at 0. *)
Theorem camera_selection_valid (calls : list Camera.Call) :
  let ct := Camera.after calls in
  (0 <= selection ct)%Z
  /\ (cameras ct <> [] -> is_Some (Camera.desired_camera (Camera.increase ct)))
  /\ (is_Some (Camera.desired_camera ct) ->
      is_Some (Camera.desired_camera (Camera.decrease ct)))
  /\ (selection ct = 0%Z -> selection (Camera.decrease ct) = 0%Z)
  /\ (cameras ct = [] -> selection (Camera.increase ct) = 0%Z).
Proof.
  cbv zeta.
  assert (0 <= selection (Camera.after calls))%Z as Hsel
    by by apply camera_fold_nonneg.
  split_and!; [done|..].
  - intros Hne. apply desired_camera_Some. cbn.
    destruct (cameras (Camera.after calls)); [done|]. cbn [length]. lia.
  - rewrite !desired_camera_Some. cbn. lia.
  - cbn. lia.
  - intros Hnil. cbn. rewrite Hnil. cbn. lia.
Qed.

Lemma mix_rows_0 (from to : Mat4) : Camera.mix_rows from to 0 = from.
Proof. destruct from. unfold Camera.mix_rows. cbn. by rewrite !mix4_0. Qed.

Lemma mix_rows_1 (from to : Mat4) : Camera.mix_rows from to 1 = to.
Proof. destruct to. unfold Camera.mix_rows. cbn. by rewrite !mix4_1. Qed.

Lemma mix_rows_same (m : Mat4) (s : num) : Camera.mix_rows m m s = m.
Proof. destruct m. unfold Camera.mix_rows. cbn. by rewrite !mix4_same. Qed.

(** X12. The frame of the camera helper.  It sets no camera exactly when it
    is disabled or its selection is outside the list.  Otherwise the
    camera moves from where it is toward the selected one by the weight
    [0.01 * dt]: not at all for a frame of no duration, all the way for a
    frame of 100 milliseconds, and a camera that has arrived stays. *)
Theorem camera_display_moves (dt : num) (camera_inverse : Mat4)
    (ct : Camera_Teleporter) :
  (Camera.display dt camera_inverse ct = None <->
   enabled ct = false
   \/ (selection ct < 0)%Z
   \/ (Z.of_nat (length (cameras ct)) <= selection ct)%Z)
  /\ (forall desired : Mat4,
         enabled ct = true -> (0 <= selection ct)%Z ->
         cameras ct !! Z.to_nat (selection ct) = Some desired ->
         Camera.display dt camera_inverse ct
         = Some (Camera.mix_rows camera_inverse desired (qc 1 100 * dt))
         /\ Camera.display 0 camera_inverse ct = Some camera_inverse
         /\ Camera.display (of_Z 100) camera_inverse ct = Some desired
         /\ Camera.display dt desired ct = Some desired).
Proof.
  split.
  - pose proof (desired_camera_Some ct) as Hsome.
    unfold Camera.display.
    destruct (Camera.desired_camera ct) as [d|] eqn:Hd.
    + assert (0 <= selection ct < Z.of_nat (length (cameras ct)))%Z
        by by apply Hsome.
      destruct (enabled ct); split; [done| |by left|done].
      intros [?|[?|?]]; [done|lia..].
    + split; [intros _|done].
      destruct (decide (0 <= selection ct
                        < Z.of_nat (length (cameras ct)))%Z) as [Hin|Hout].
      * apply Hsome in Hin. by destruct Hin.
      * right. lia.
  - intros desired Hen Hsel Hlook. unfold Camera.display, Camera.desired_camera.
    rewrite decide_False by lia. rewrite Hlook, Hen.
    replace (qc 1 100 * 0) with (Q2Qc 0) by ring.
    replace (qc 1 100 * of_Z 100) with (Q2Qc 1) by by apply Qc_is_canon.
    by rewrite mix_rows_0, mix_rows_1, mix_rows_same.
Qed.

(** ** The flight of the ball *)

Ltac qc_arith := repeat (progress to_Q); unfold inject_Z in *; lra.

Lemma Math_abs_ge_0 (x : num) : 0 <= Math_abs x.
Proof.
  unfold Math_abs. destruct (decide (x < 0)) as [Hlt|Hge]; [qc_lra|].
  by apply Qcnot_lt_le.
Qed.

Lemma boost_range (random : num) :
  0 <= random -> random < 1 ->
  (0 <= Math_floor (random * of_Z 21) <= 20)%Z.
Proof.
  intros H0 H1. unfold Math_floor.
  destruct (proj1 (floor_unique (this (random * of_Z 21)) _) eq_refl)
    as [Hle Hlt].
  revert Hle Hlt. generalize (Qfloor (this (random * of_Z 21))). intros z.
  rewrite this_mult, this_of_Z. unfold Qcle, Qclt in *.
  change (this 0) with 0%Q in *. change (this 1) with 1%Q in *.
  change (inject_Z 21) with 21%Q.
  intros Hle Hlt. split.
  - assert (-1 < z)%Z; [|lia]. rewrite Zlt_Qlt.
    change (inject_Z (-1)) with (-1)%Q. nra.
  - assert (z < 21)%Z; [|lia]. rewrite Zlt_Qlt.
    change (inject_Z 21) with 21%Q. nra.
Qed.

Lemma damped_magnitude (x : num) :
  Math_abs (x * qc 6 10) <= Math_abs x
  /\ Math_abs (x * - qc 6 10) <= Math_abs x.
Proof.
  unfold Math_abs.
  split; repeat (destruct (decide _) as [?|?]);
    repeat match goal with
           | Hn : ~ (_ < _) |- _ => apply Qcnot_lt_le in Hn
           end; qc_arith.
Qed.

Section FlightFacts.

Context `{MatrixLib}.

Lemma launch_back (random : num) (ball : Body) :
  v2 (linear_velocity (Baseball.launch random ball)) <= 0.
Proof.
  unfold Baseball.launch. cbv zeta.
  destruct (decide (0 < v2 (linear_velocity ball))) as [Hpos|Hneg];
    [|by apply Qcnot_lt_le].
  cbn.
  assert (0 <= Math_min (qc 36 10) (Math_abs (v2 (center ball)) * of_Z 3))
    as Hmin.
  { pose proof (Math_abs_ge_0 (v2 (center ball))) as Habs.
    unfold Math_min. destruct (decide _); to_Q; unfold inject_Z in *; lra. }
  revert Hmin.
  generalize (Math_min (qc 36 10) (Math_abs (v2 (center ball)) * of_Z 3)).
  intros m Hm. unfold Qcle, Qclt in *.
  rewrite this_mult, this_opp. change (this 0) with 0%Q in *. nra.
Qed.

(** X13. The hit sends the ball away from the batter, once.  After
    [launch] the z velocity is not positive, so a second [launch] changes
    nothing; the ball stays where it is; and a ball that is launched, for
    a draw in [[0, 1)], gains between 10 and 30 in y velocity, gets the x
    velocity [(z + 1) * 5] of its place, and has its z velocity reversed
    and scaled by at most 3.6. *)
Theorem launch_once (random again : num) (ball : Body) :
  let sent := Baseball.launch random ball in
  v2 (linear_velocity sent) <= 0
  /\ Baseball.launch again sent = sent
  /\ center sent = center ball
  /\ (0 < v2 (linear_velocity ball) -> 0 <= random -> random < 1 ->
      v1 (linear_velocity ball) + of_Z 10 <= v1 (linear_velocity sent)
      /\ v1 (linear_velocity sent) <= v1 (linear_velocity ball) + of_Z 30
      /\ v0 (linear_velocity sent) = (v2 (center ball) + 1) * of_Z 5
      /\ - (qc 36 10 * v2 (linear_velocity ball)) <= v2 (linear_velocity sent)).
Proof.
  cbv zeta. pose proof (launch_back random ball) as Hback. split_and!.
  - exact Hback.
  - unfold Baseball.launch at 1. cbv zeta.
    rewrite decide_False; [done|]. by apply Qcle_not_lt.
  - unfold Baseball.launch. cbv zeta. by destruct (decide _).
  - intros Hpos H0 H1. unfold Baseball.launch. cbv zeta.
    rewrite decide_True by done. cbn.
    pose proof (boost_range random H0 H1) as Hboost.
    revert Hboost. generalize (Math_floor (random * of_Z 21)). intros z Hz.
    pose proof (Math_min_le_r (qc 36 10) (Math_abs (v2 (center ball)) * of_Z 3))
      as _.
    assert (Math_min (qc 36 10) (Math_abs (v2 (center ball)) * of_Z 3)
            <= qc 36 10) as Hmin.
    { unfold Math_min. destruct (decide _) as [Hlt|Hge]; [qc_lra|].
      apply Qcle_refl. }
    revert Hmin.
    generalize (Math_min (qc 36 10) (Math_abs (v2 (center ball)) * of_Z 3)).
    intros m Hm. split_and!.
    + unfold Qcle. rewrite !this_plus, !this_of_Z, inject_Z_plus.
      assert (inject_Z 0 <= inject_Z z)%Q by (rewrite <- Zle_Qle; lia).
      change (inject_Z 0) with 0%Q in *. change (inject_Z 10) with 10%Q. lra.
    + unfold Qcle. rewrite !this_plus, !this_of_Z, inject_Z_plus.
      assert (inject_Z z <= inject_Z 20)%Q by (rewrite <- Zle_Qle; lia).
      change (inject_Z 20) with 20%Q in *.
      change (inject_Z 10) with 10%Q. change (inject_Z 30) with 30%Q. lra.
    + done.
    + unfold Qcle, Qclt in *.
      rewrite ?this_opp, ?this_mult, ?this_opp, ?this_qc in *.
      change (this 0) with 0%Q in *. nra.
Qed.

(** X14. A ball that was hit does not come back: after the rules of a tick,
    whatever the bounce and the settling do, its z velocity is not
    positive, and its place is not written by the rules. *)
Theorem hit_ball_flies_out (dt random : num) (g : Game) (ball : Body) :
  ball_hit g = true ->
  let after := (Baseball.post_hit dt random g ball).2 in
  v2 (linear_velocity after) <= 0 /\ center after = center ball.
Proof.
  intros Hhit. cbv zeta. unfold Baseball.post_hit. rewrite Hhit. cbv zeta.
  pose proof (launch_back random ball) as Hback.
  assert (center (Baseball.launch random ball) = center ball) as Hc.
  { unfold Baseball.launch. cbv zeta. by destruct (decide _). }
  revert Hback Hc. generalize (Baseball.launch random ball). intros b Hb Hc.
  unfold Baseball.bounce.
  destruct (Baseball.bouncing (Baseball.gravity dt b)); cbn [snd];
    unfold Baseball.settle; cbv zeta;
    match goal with |- context [if ?c then _ else _] => destruct c end;
    cbn; (split; [|done]); qc_arith.
Qed.

(** X15. A bounce turns the ball upward and does not speed it up: the
    ball that is about to fall through the floor leaves [bounce] rising, no
    longer to be bounced, with no component of its velocity larger in
    magnitude than before and half of its spin, at the same place; and the
    first bounce has been noted. *)
Theorem bounce_turns_up (g : Game) (ball : Body) :
  Baseball.bouncing ball = true ->
  let g' := (Baseball.bounce g ball).1 in
  let ball' := (Baseball.bounce g ball).2 in
  0 < v1 (linear_velocity ball')
  /\ Baseball.bouncing ball' = false
  /\ (Math_abs (v0 (linear_velocity ball'))
        <= Math_abs (v0 (linear_velocity ball))
      /\ Math_abs (v1 (linear_velocity ball'))
         <= Math_abs (v1 (linear_velocity ball))
      /\ Math_abs (v2 (linear_velocity ball'))
         <= Math_abs (v2 (linear_velocity ball)))
  /\ angular_velocity ball' = angular_velocity ball * qc 1 2
  /\ center ball' = center ball
  /\ ball_bounced g' = true.
Proof.
  intros Hb. cbv zeta. unfold Baseball.bounce. rewrite Hb. cbn [fst snd].
  unfold Baseball.bouncing in Hb.
  apply andb_true_iff in Hb as [Hy Hv].
  apply bool_decide_eq_true in Hy, Hv.
  assert (0 < v1 (linear_velocity (Baseball.damp ball))) as Hup
    by (cbn; qc_arith).
  split; [exact Hup|]. split; [|split; [|split; [|split]]].
  - unfold Baseball.bouncing. apply andb_false_iff. right.
    apply bool_decide_eq_false. by apply Qcle_not_lt, Qclt_le_weak.
  - cbn. split; [|split].
    + exact (proj1 (damped_magnitude _)).
    + exact (proj2 (damped_magnitude _)).
    + exact (proj1 (damped_magnitude _)).
  - done.
  - done.
  - unfold Baseball.judge. destruct (ball_bounced g) eqn:Hbb; [done|].
    cbv zeta. by destruct (Baseball.is_home_run _ _).
Qed.

(** X16. A tick with fewer than two bodies.  With no body the tick does
    nothing.  With one body, the bat, it registers no hit and retires
    nothing: it caches the inverse of the body's matrix and gives it the
    baseball material, and when [ball_hit] is set (by the key "Home Run")
    it does not even that, and does not clear the flag. *)
Theorem update_state_lone_body (dt random : num) (g : Game) :
  (bodies g = [] -> Baseball.update_state dt random g = Done g)
  /\ (forall a : Body,
         bodies g = [a] ->
         Baseball.update_state dt random g
         = Done (if ball_hit g then g
                 else set_bodies
                        [set_inverse_material
                           (Mat4_inverse (drawn_location a)) baseball a] g)).
Proof.
  split.
  - intros Hb. unfold Baseball.update_state, Baseball.physics,
      Baseball.collisions.
    rewrite Hb. destruct (ball_hit g); cbn; by rewrite Hb.
  - intros a Hb. unfold Baseball.update_state, Baseball.physics,
      Baseball.collisions.
    rewrite Hb. destruct (ball_hit g); cbn; [by rewrite Hb|].
    unfold Baseball.collide_from. cbv zeta. rewrite Hb. cbn.
    unfold Baseball.collide_pair, check_if_colliding.
    rewrite decide_True by done. cbn. done.
Qed.

Lemma near_wider (b : Body) :
  Baseball.near (of_Z 40) b = true -> Baseball.near (of_Z 300) b = true.
Proof.
  unfold Baseball.near, Vec.norm_lt. rewrite !bool_decide_eq_true.
  intros Hlt. eapply Qclt_trans; [exact Hlt|]. by vm_compute.
Qed.

Lemma In_removelast {A : Type} (x : A) (l : list A) :
  In x (removelast l) -> In x l.
Proof.
  induction l as [|y l IH]; [done|]. cbn.
  destruct l as [|z l]; [done|]. intros [->|Hin]; [by left|right; by apply IH].
Qed.

Lemma retire_slow_In (ball b : Body) (g : Game) :
  In b (bodies (Baseball.retire_slow ball g)) -> In b (bodies g).
Proof.
  unfold Baseball.retire_slow. destruct (decide _); [done|].
  destruct (Baseball.at_rest ball); [|done]. cbn. apply In_removelast.
Qed.

(** X17. A tick with a bat and a ball leaves no body at a distance of 300 or
    more from the origin. *)
Theorem update_state_retires_far (dt random : num) (g g' : Game) :
  Baseball.update_state dt random g = Done g' ->
  (2 <= length (bodies g))%nat ->
  forall b : Body, In b (bodies g') -> Baseball.near (of_Z 300) b = true.
Proof.
  intros Hrun Hlen. revert Hrun.
  unfold Baseball.update_state, Baseball.physics.
  destruct (collisions_ok g) as (g0 & -> & (_ & _ & _ & _ & _ & Hl) & Hsame).
  cbn.
  destruct (bodies g0 !! 1%nat) as [ball|] eqn:Hball; cycle 1.
  { apply lookup_ge_None in Hball. lia. }
  destruct (Baseball.post_hit dt random g0 ball) as [g2 ball2] eqn:Hpost.
  cbn. intros [= <-].
  set (g3 := set_bodies _ g2).
  intros b Hin. apply retire_slow_In in Hin.
  rewrite retire_far_bodies in Hin. apply filter_In in Hin as [_ Hin].
  destruct (ball_hit g3); [done|by apply near_wider].
Qed.

End FlightFacts.

(** ** Whole frames *)

Section FrameMore.

Context `{MatrixLib}.

Lemma tick_score (boosts : nat -> num) (k : nat) (d : num) (g g' : Game) :
  tick Baseball.update_state boosts k d g = Done g' ->
  (game_score g <= game_score g' <= game_score g + 1)%Z.
Proof.
  destruct (update_state_ok d (boosts k) g) as (g1 & Hrun & _ & _ & Hs).
  unfold tick. rewrite Hrun. cbn. intros [= <-]. cbn.
  destruct Hs as [[-> _]|[(_ & -> & _)|(_ & -> & _)]]; lia.
Qed.

Lemma step_loop_score (boosts : nat -> num) (fuel : nat) (frame_time : num) :
  forall (k : nat) (c : Clock) (g : Game) (c' : Clock) (g' : Game),
    step_loop (tick Baseball.update_state boosts) fuel frame_time k c g
    = Done (c', g') ->
    (game_score g <= game_score g'
     <= game_score g + (steps_taken c' - steps_taken c))%Z.
Proof.
  induction fuel as [|fuel IH]; intros k c g c' g'; rewrite step_loop_unfold;
    (destruct (decide _); [|intros [= <- <-]; lia]).
  - done.
  - destruct (tick Baseball.update_state boosts k (dt c) g) as [g1| |] eqn:Ht;
      cbn; [|done..].
    intros Hrun. apply tick_score in Ht. apply IH in Hrun. clock_simpl. lia.
Qed.

(** X18. What [simulate] leaves alone.  A call that returns has not changed
    the phase, the level, the target, the pitch count, the pitch timer or
    the collider; it has added no body; and the score has not gone down
    and has gone up by at most one for each step taken. *)
Theorem simulate_keeps_rules (fuel : nat) (boosts : nat -> num)
    (frame_time : num) (s s' : Scene) :
  Baseball.simulate fuel boosts frame_time s = Done s' ->
  rules_kept (game s) (game s')
  /\ (length (bodies (game s')) <= length (bodies (game s)))%nat
  /\ (game_score (game s) <= game_score (game s')
      <= game_score (game s)
         + (steps_taken (clock s') - steps_taken (clock s)))%Z.
Proof.
  intros Hrun. pose proof (simulate_done _ _ _ _ _ Hrun) as [(Hk & Hl & _) _].
  split; [done|]. split; [done|].
  revert Hrun. unfold Baseball.simulate, simulate, stepping. cbv zeta.
  destruct (step_loop _ _ _ _ _ _) as [[c1 g1]| |] eqn:Hloop; cbn; [|done..].
  intros [= <-]. cbn. apply step_loop_score in Hloop. clock_simpl. lia.
Qed.

(** X19. The bounds of the game.  In every scene that the program reaches
    there are at most two bodies, the pitch count is between -1 and 10,
    the score is not negative, and the target is 3 on level one and 5 on
    level two. *)
Theorem reachable_bounds (s : Scene) :
  reachable s ->
  (length (bodies (game s)) <= 2)%nat
  /\ (-1 <= pitch_count (game s) <= 10)%Z
  /\ (0 <= game_score (game s))%Z
  /\ (current_game_level (game s) = 1%Z -> game_target (game s) = 3%Z)
  /\ (current_game_level (game s) = 2%Z -> game_target (game s) = 5%Z).
Proof.
  intros Hs. destruct (reachable_ok s Hs) as (Hlevel & Hl & Hp & Hscore).
  split_and!; try done; lia.
Qed.

(** X20. The pause before a pitch.  When a pitch was asked for and no ball
    is in the list, the frame notes its time in [pitch_timer], clears the
    request and pitches nothing; and no frame up to two seconds later
    pitches either. *)
Theorem pitch_waits_two_seconds (f : Frame) (now later : num) (g : Game) :
  pitch_time g = true ->
  (length (bodies g) < 2)%nat ->
  let g1 := pitch_clock now g in
  pitch_timer g1 = now /\ pitch_time g1 = false /\ bodies g1 = bodies g
  /\ pitch_spawn f now g1 = g1
  /\ (later <= now + 2 -> pitch_spawn f later (pitch_clock later g1) = g1).
Proof.
  intros Hpt Hlen. cbv zeta.
  assert (pitch_clock now g = set_pitch_time false (set_pitch_timer now g))
    as ->.
  { unfold pitch_clock. rewrite Hpt. by rewrite bool_decide_eq_true_2. }
  split_and!; try done.
  - unfold pitch_spawn, pitch_due. cbn.
    rewrite (bool_decide_eq_false_2 (now + 2 < now)); [done|].
    intros Hlt. qc_lra.
  - intros Hle. unfold pitch_clock at 1. cbn.
    unfold pitch_spawn, pitch_due. cbn.
    rewrite (bool_decide_eq_false_2 (now + 2 < later)); [done|].
    by apply Qcle_not_lt.
Qed.

Lemma title_returns {P Q : Prop} (d : {P} + {Q}) (fuel : nat) (delta : num)
    (c : Clock) :
  clock_ok c -> 0 <= delta -> (2 <= fuel)%nat ->
  exists c' a,
    (if d then title_screen fuel delta c else Done (c, 0)) = Done (c', a)
    /\ clock_ok c'.
Proof.
  intros Hc Hd Hfuel. destruct d; [|by exists c, 0].
  pose proof Hc as (Hts & Hdt & H0 & Hlt).
  destruct (stepping_settles (fun _ _ (u : unit) => Done u)
              (fun _ _ u => ex_intro _ u eq_refl) 2 fuel delta c tt)
    as (c' & u & Hrun & _); try done.
  - by rewrite Hdt.
  - by rewrite Hts.
  - by apply two_steps_cover.
  - exists c', (alpha_of c'). unfold title_screen. rewrite Hrun. cbn.
    split; [done|]. exact (stepping_done _ _ _ _ _ _ _ Hc Hd Hrun).
Qed.

Lemma display_total (f : Frame) (s : Scene) :
  clock_ok (clock s) -> 0 <= animation_delta_time f -> (2 <= fuel f)%nat ->
  exists s', Baseball.display f s = Done s' /\ clock_ok (clock s').
Proof.
  intros Hc Hd Hfuel. unfold Baseball.display, display. cbv zeta.
  destruct (title_returns
              (decide (current_game_state (note_start (game s)) = not_started))
              (fuel f) (animation_delta_time f) (clock s) Hc Hd Hfuel)
    as (c1 & a1 & -> & Hc1). cbn.
  destruct (title_returns
              (decide (current_game_state (note_start (game s)) = game_won))
              (fuel f) (animation_delta_time f) c1 Hc1 Hd Hfuel)
    as (c2 & a2 & -> & Hc2). cbn.
  match goal with
  | |- context [simulate _ _ _ _ ?s0] =>
      destruct (simulate_returns (fuel f) (random_boost f)
                  (animation_delta_time f) s0 Hc2 Hd Hfuel) as (s3 & Hsim);
      pose proof (simulate_done _ _ _ _ _ Hsim) as [_ Hok]
  end.
  unfold Baseball.simulate in Hsim. rewrite Hsim. cbn.
  eexists. split; [done|]. cbn. by apply Hok.
Qed.

Lemma run_total (events : list Event) :
  forall s : Scene,
    reachable s -> clock_ok (clock s) -> Forall drawable events ->
    exists s', run events s = Done s' /\ reachable s' /\ clock_ok (clock s').
Proof.
  induction events as [|e events IH]; intros s Hs Hc Hev.
  - by exists s.
  - inversion Hev as [|e0 events0 He Hev']; subst. clear Hev.
    assert (exists s1, handle e s = Done s1 /\ clock_ok (clock s1))
      as (s1 & Hstep & Hc1).
    { destruct e as [| | |f]; cbn; [by eexists..|].
      destruct He as [Hd Hfuel]. apply display_total; [done..|lia]. }
    destruct (IH s1) as (s' & Hrun & Hs' & Hc'); [|done|done|].
    { by apply (reach_step s e s1). }
    exists s'. split; [|done].
    unfold run in *. cbn. by rewrite Hstep.
Qed.

Lemma run_failed (events : list Event) (r : outcome Scene) :
  (forall s, r <> Done s) ->
  forall s, fold_left (fun r e => s ← r; handle e s) events r <> Done s.
Proof.
  revert r. induction events as [|e events IH]; intros r Hr; [done|].
  cbn. apply IH. intros s. destruct r as [s0| |]; [|done..].
  by destruct (Hr s0).
Qed.

Lemma run_reachable (events : list Event) :
  forall s s' : Scene,
    reachable s -> run events s = Done s' -> reachable s'.
Proof.
  induction events as [|e events IH]; intros s s' Hs.
  - by intros [= <-].
  - unfold run. cbn.
    destruct (handle e s) as [s1| |] eqn:Hstep.
    + apply (IH s1). by apply (reach_step s e s1).
    + intros Hrun. by apply run_failed in Hrun.
    + intros Hrun. by apply run_failed in Hrun.
Qed.

(** X21. No frame gets stuck in the rules of the game.  From the
    constructor, any sequence of the keys and of frames whose time steps
    are not negative runs to its end, as far as the clock and the game
    state go: [update_state] never throws, as no collision test reads a
    matrix inverse before it was cached, and each loop on the time
    accumulator, that of [simulate] and those of the two title screens,
    ends within the four iterations it is given.  The drawing and the loops
    on the list of title balls are not part of the frames meant here. *)
Theorem game_frames_return (events : list Event) :
  Forall drawable events ->
  exists s : Scene, run events initial = Done s /\ reachable s.
Proof.
  intros Hev.
  destruct (run_total events initial reach_initial initial_clock_ok Hev)
    as (s & Hrun & Hs & _).
  by exists s.
Qed.


End FrameMore.

(** ** The end of the game *)

Section WinFacts.

Context `{MatrixLib}.

Lemma progression_won (g : Game) :
  game_ok g -> won_in_order g ->
  won_in_order (update_target (level_progression g))
  /\ (current_game_state g = game_won ->
      current_game_state (update_target (level_progression g)) = game_won).
Proof.
  intros (Hlt & Hlen & Hp & Hs) Hwon. unfold won_in_order in *.
  destruct (decide (pitch_count g = -1)%Z) as [Hout|Hleft].
  - destruct Hlt as [[Hl Ht]|[Hl Ht]].
    + destruct (decide (game_score g < 3)%Z).
      * rewrite progression_lose_one, update_target_one by done.
        game_fields. split; [done|]. intros Hst. apply Hwon in Hst. lia.
      * rewrite progression_advance_one, update_target_two by (done || lia).
        game_fields. split; intros Hst; apply Hwon in Hst; lia.
    + destruct (decide (game_score g < 5)%Z).
      * rewrite progression_lose_two, update_target_two by done.
        game_fields. split; [done|]. intros Hst. apply Hwon in Hst. lia.
      * rewrite progression_win_two, update_target_two by (done || lia).
        game_fields. split; [|done]. intros _. lia.
  - rewrite progression_idle by (done || lia).
    destruct Hlt as [[Hl Ht]|[Hl Ht]].
    + rewrite update_target_one by done. split; [done|]. done.
    + rewrite update_target_two by done. game_fields.
      split; intros Hst; apply Hwon in Hst; lia.
Qed.

Lemma pitch_spawn_idle (f : Frame) (now : num) (g : Game) :
  current_game_state g <> started -> pitch_spawn f now g = g.
Proof.
  intros Hst. unfold pitch_spawn, pitch_due.
  rewrite (bool_decide_eq_false_2 (current_game_state g = started)) by done.
  by rewrite andb_false_r.
Qed.

Lemma frame_tail_won (f : Frame) (now : num) (g : Game) :
  won_in_order g ->
  let g' := track_bat f (pitch_spawn f now (pitch_clock now (ensure_bat f g))) in
  won_in_order g'
  /\ (current_game_state g = game_won -> current_game_state g' = game_won).
Proof.
  intros Hwon g'. subst g'.
  set (g2 := pitch_clock now (ensure_bat f g)).
  assert (current_game_state g2 = current_game_state g
          /\ current_game_level g2 = current_game_level g
          /\ pitch_count g2 = pitch_count g
          /\ game_score g2 = game_score g) as (Hst & Hl & Hp & Hs).
  { subst g2. unfold pitch_clock, ensure_bat.
    destruct (decide (length (bodies g) < 1)%nat); cbn;
      by destruct (pitch_time g && _). }
  destruct (decide (current_game_state g = game_won)) as [Hw|Hn].
  - rewrite pitch_spawn_idle by congruence.
    unfold track_bat, won_in_order in *. cbn. rewrite Hst, Hl, Hp, Hs.
    by split.
  - assert (current_game_state (pitch_spawn f now g2) = current_game_state g)
      as Hst3.
    { unfold pitch_spawn. by destruct (pitch_due now g2). }
    unfold track_bat, won_in_order. cbn. rewrite Hst3. by split.
Qed.

Lemma won_started (v : Z) (g : Game) :
  won_in_order g -> won_in_order (set_game_started v g).
Proof. intros Hwon. exact Hwon. Qed.

Lemma frame_rules_won (f : Frame) (g : Game) :
  game_ok g -> won_in_order g ->
  won_in_order (frame_rules f g)
  /\ (current_game_state g = game_won ->
      current_game_state (frame_rules f g) = game_won).
Proof.
  intros Hok Hwon. unfold frame_rules. cbv zeta.
  destruct (note_start_fields g) as [v ->].
  rewrite level_progression_started, update_target_started.
  destruct (progression_won g Hok Hwon) as [Hwon1 Hst1].
  set (g1 := update_target (level_progression g)) in *.
  clearbody g1.
  pose proof (frame_tail_won f (animation_time f / of_Z 1000)
                (set_game_started v g1) (won_started v g1 Hwon1)) as Htail.
  cbv zeta in Htail. destruct Htail as [Hwon3 Hst3].
  split; [exact Hwon3|]. intros Hst. apply Hst3.
  destruct (started_fields v g1) as (_ & -> & _). by apply Hst1.
Qed.

Lemma display_won (f : Frame) (s s' : Scene) :
  game_ok (game s) -> won_in_order (game s) ->
  Baseball.display f s = Done s' ->
  won_in_order (game s')
  /\ (current_game_state (game s) = game_won ->
      current_game_state (game s') = game_won).
Proof.
  intros Hok Hwon Hrun. apply display_done in Hrun as (c & s1 & Hsim & ->).
  apply simulate_done in Hsim as [(Hk & Hlen & Hscore) _].
  destruct (frame_rules_won f (game s) Hok Hwon) as [Hwon1 Hst1].
  destruct (camera_follow_fields (game s1)) as (Hk2 & _ & Hs2).
  destruct Hk as (_ & Hst & Hl & _ & _ & Hp & _).
  destruct Hk2 as (_ & Hst' & Hl' & _ & _ & Hp' & _).
  cbn [game clock] in *.
  unfold won_in_order in *. rewrite Hst', Hl', Hp', Hs2, Hst, Hl, Hp.
  split.
  - intros Hw. apply Hwon1 in Hw. lia.
  - exact Hst1.
Qed.

Lemma reachable_won (s : Scene) : reachable s -> won_in_order (game s).
Proof.
  induction 1 as [|s e s' Hs IH Hstep].
  - by intros Hst.
  - destruct e as [| | |f]; cbn in Hstep.
    + injection Hstep as <-. by intros Hst.
    + injection Hstep as <-. by intros Hst.
    + injection Hstep as <-. exact IH.
    + by apply (display_won f s s' (reachable_ok s Hs) IH).
Qed.

(** X24. A won game stays won.  In every scene that the program reaches, a
    game in the phase "won" is at level two with its pitches used up and
    at least five home runs; and every frame leaves it in that phase: only
    the keys "Start Game" and "Restart Game" end it. *)
Theorem won_stays_won (s : Scene) :
  reachable s ->
  current_game_state (game s) = game_won ->
  (current_game_level (game s) = 2%Z /\ pitch_count (game s) = (-1)%Z
   /\ (5 <= game_score (game s))%Z)
  /\ (forall (f : Frame) (s' : Scene),
         Baseball.display f s = Done s' ->
         current_game_state (game s') = game_won)
  /\ current_game_state (game (on_game home_run_key s)) = game_won.
Proof.
  intros Hs Hst. pose proof (reachable_won s Hs) as Hwon.
  split; [|split].
  - by apply Hwon.
  - intros f s' Hrun.
    by apply (display_won f s s' (reachable_ok s Hs) Hwon Hrun).
  - done.
Qed.

End WinFacts.

(** ** Before the start *)

Lemma step_loop_inv {W : Type} (P : W -> Prop)
    (tick : nat -> num -> W -> outcome W) :
  (forall k d w w', P w -> tick k d w = Done w' -> P w') ->
  forall (fuel : nat) (frame_time : num) (k : nat) (c : Clock) (w : W)
         (c' : Clock) (w' : W),
    P w -> step_loop tick fuel frame_time k c w = Done (c', w') -> P w'.
Proof.
  intros Htick steps. induction steps as [|steps IH];
    intros frame_time k c w c' w' HP; rewrite step_loop_unfold;
    (destruct (decide _); [|by intros [= <- <-]]).
  - done.
  - destruct (tick k (dt c) w) as [w1| |] eqn:Ht; cbn; [|done..].
    apply IH. by eapply Htick.
Qed.

Section QuietFacts.

Context `{MatrixLib}.

Lemma update_state_quiet (dt random : num) (g g' : Game) :
  quiet g -> Baseball.update_state dt random g = Done g' ->
  quiet g' /\ length (bodies g') = length (bodies g).
Proof.
  intros (Hst & Hl & Hs & Hp & Ht & Hgs & Hlen & Hlog).
  unfold Baseball.update_state, Baseball.physics, Baseball.collisions.
  destruct (bodies g) as [|a [|b l]] eqn:Hb; [| |cbn in Hlen; lia].
  - destruct (ball_hit g); cbn; rewrite Hb; cbn; intros [= <-];
      unfold quiet; by rewrite Hb.
  - destruct (ball_hit g); cbn.
    + rewrite Hb. cbn. intros [= <-]. unfold quiet. by rewrite Hb.
    + unfold Baseball.collide_from. cbv zeta. rewrite Hb. cbn.
      unfold Baseball.collide_pair, check_if_colliding.
      rewrite decide_True by done. cbn. intros [= <-]. by unfold quiet.
Qed.

Lemma tick_quiet (n : nat) (boosts : nat -> num) (k : nat) (d : num)
    (g g' : Game) :
  quiet g /\ length (bodies g) = n ->
  tick Baseball.update_state boosts k d g = Done g' ->
  quiet g' /\ length (bodies g') = n.
Proof.
  intros [Hq Hn]. unfold tick.
  destruct (Baseball.update_state d (boosts k) g) as [g1| |] eqn:Hrun; cbn;
    [|done..].
  apply (update_state_quiet _ _ _ _ Hq) in Hrun.
  destruct Hrun as [(? & ? & ? & ? & ? & ? & ? & ?) Hlen].
  intros [= <-]. unfold quiet. cbn. rewrite length_map.
  split; [done|congruence].
Qed.

Lemma simulate_quiet (fuel : nat) (boosts : nat -> num) (frame_time : num)
    (s s' : Scene) :
  quiet (game s) -> Baseball.simulate fuel boosts frame_time s = Done s' ->
  quiet (game s') /\ length (bodies (game s')) = length (bodies (game s)).
Proof.
  intros Hq. unfold Baseball.simulate, simulate, stepping. cbv zeta.
  destruct (step_loop _ _ _ _ _ _) as [[c1 g1]| |] eqn:Hloop; cbn; [|done..].
  apply (step_loop_inv
           (fun g => quiet g /\ length (bodies g) = length (bodies (game s))))
    in Hloop; [|by apply tick_quiet|done].
  destruct Hloop as [(? & ? & ? & ? & ? & ? & ? & ?) Hlen].
  intros [= <-]. unfold quiet. cbn. by rewrite length_map.
Qed.

Lemma frame_rules_quiet (f : Frame) (g : Game) :
  quiet g ->
  quiet (frame_rules f g) /\ length (bodies (frame_rules f g)) = 1%nat.
Proof.
  intros (Hst & Hl & Hs & Hp & Ht & Hgs & Hlen & Hlog).
  unfold frame_rules. cbv zeta.
  assert (note_start g = g) as ->.
  { unfold note_start, when. by rewrite Hst. }
  rewrite progression_idle by lia. rewrite update_target_one by done.
  set (g2 := pitch_clock _ (ensure_bat f g)).
  assert (quiet g2 /\ length (bodies g2) = 1%nat) as [Hq2 Hlen2].
  { subst g2. unfold pitch_clock, ensure_bat, quiet.
    destruct (decide (length (bodies g) < 1)%nat) as [Hempty|Hbat]; cbn.
    - destruct (bodies g) as [|a l] eqn:Hb; [|cbn in Hempty; lia].
      destruct (pitch_time g && _); cbn; rewrite ?Hb; cbn; split_and!;
        first [done|lia].
    - destruct (pitch_time g && _); cbn; split_and!; first [done|lia]. }
  rewrite pitch_spawn_idle by (destruct Hq2 as [-> _]; done).
  destruct Hq2 as (? & ? & ? & ? & ? & ? & ? & ?).
  unfold track_bat, quiet. cbn. rewrite length_imap.
  split; [|done]. split_and!; first [done|lia].
Qed.

Lemma display_quiet (f : Frame) (s s' : Scene) :
  quiet (game s) -> Baseball.display f s = Done s' ->
  quiet (game s') /\ length (bodies (game s')) = 1%nat.
Proof.
  intros Hq Hrun. apply display_done in Hrun as (c & s1 & Hsim & ->).
  destruct (frame_rules_quiet f (game s) Hq) as [Hq1 Hbat].
  destruct (simulate_quiet _ _ _ {| clock := c;
                                    game := frame_rules f (game s) |} s1
              Hq1 Hsim) as [Hq2 Hlen2].
  cbn [game] in *.
  assert (camera_follow (game s1) = game s1) as ->.
  { unfold camera_follow. destruct Hq2 as [-> _]. done. }
  split; [done|congruence].
Qed.

Lemma run_quiet (events : list Event) :
  forall s s' : Scene,
    Forall no_start events -> quiet (game s) ->
    run events s = Done s' ->
    quiet (game s')
    /\ ((exists f, In (Draw f) events) -> length (bodies (game s')) = 1%nat).
Proof.
  induction events as [|e events IH] using rev_ind; intros s s' Hev Hq.
  - intros [= <-]. split; [done|]. by intros [f []].
  - apply Forall_app in Hev as [Hev He].
    inversion He as [|e0 l0 Hne _]; subst. clear He.
    unfold run. rewrite fold_left_app. cbn.
    change (fold_left _ events (Done s)) with (run events s).
    destruct (run events s) as [s1| |] eqn:Hrun; cbn; [|done..].
    destruct (IH s s1 Hev Hq Hrun) as [Hq1 Hbat1].
    destruct e as [| | |f]; cbn; try done.
    + intros [= <-]. split; [exact Hq1|].
      intros [f Hin]. apply Hbat1. exists f.
      apply in_app_or in Hin as [Hin|[Hin|[]]]; done.
    + intros Hstep. destruct (display_quiet f s1 s' Hq1 Hstep) as [Hq2 Hb2].
      by split.
Qed.

(** X25. The rules of the game are idle before the start.  From the
    constructor, as long as neither "Start Game" nor "Restart Game" is
    pressed, frames and the key "Home Run" leave the game not started, at
    level one with ten pitches, no score and the target 3; no ball is
    pitched, none of the three cues of play (the crack of the bat and the
    calls of a home run and of no home run) is played and the camera helper
    is not stepped; once a frame was drawn there is one body, the bat.
    (The music of the start screen, which every such frame plays, is not
    among the calls recorded.) *)
Theorem quiet_before_start (events : list Event) (s : Scene) :
  Forall no_start events ->
  run events initial = Done s ->
  quiet (game s)
  /\ ((exists f, In (Draw f) events) -> length (bodies (game s)) = 1%nat).
Proof.
  intros Hev Hrun. apply (run_quiet events initial s Hev); [|exact Hrun].
  unfold quiet. cbn. split_and!; first [done|lia].
Qed.

End QuietFacts.

(** ** One pitch at a time *)

Section PitchFacts.

Context `{MatrixLib}.

Lemma progression_same_level (g : Game) :
  current_game_level (level_progression g) = current_game_level g ->
  standing (level_progression g) = standing g.
Proof.
  rewrite (standing_level _ _ (progression_standing g)).
  rewrite progression_standing.
  unfold Level.one, Level.two, Level.three, Level.four.
  destruct (decide (current_game_level g = 1%Z /\ (3 <= game_score g)%Z
                    /\ pitch_count g = (-1)%Z)) as [(Hl & Hs & Hp)|Hno].
  - rewrite (next_level_hit 1 3 (-1) 2 g) by done.
    rewrite next_level_miss by (game_fields; lia).
    game_fields. lia.
  - rewrite (next_level_miss 1 3 (-1) 2 g) by lia.
    destruct (decide (current_game_level g = 3%Z /\ (7 <= game_score g)%Z
                      /\ pitch_count g = 0%Z)) as [(Hl & Hs & Hp)|Hno'].
    + rewrite next_level_hit by done. game_fields. lia.
    + by rewrite next_level_miss by lia.
Qed.

Lemma standing_inv (g g' : Game) :
  standing g = standing g' ->
  current_game_level g = current_game_level g'
  /\ game_score g = game_score g' /\ pitch_count g = pitch_count g'.
Proof. by intros [= ? ? ?]. Qed.

Lemma target_for_standing (level target : Z) (g : Game) :
  standing (target_for level target g) = standing g.
Proof. unfold target_for, when. by destruct (bool_decide _). Qed.

Lemma update_target_standing (g : Game) :
  standing (update_target g) = standing g.
Proof.
  unfold update_target. cbv zeta. by rewrite !target_for_standing.
Qed.

Lemma frame_tail_pitch (f : Frame) (now : num) (g : Game) :
  let g' := track_bat f (pitch_spawn f now (pitch_clock now (ensure_bat f g))) in
  current_game_level g' = current_game_level g
  /\ current_game_state g' = current_game_state g
  /\ game_score g' = game_score g
  /\ (pitch_count g' = pitch_count g
      \/ (pitch_count g' = (pitch_count g - 1)%Z
          /\ current_game_state g = started
          /\ (-1 < pitch_count g)%Z)).
Proof.
  intros g'. subst g'.
  set (g2 := pitch_clock now (ensure_bat f g)).
  assert (current_game_state g2 = current_game_state g
          /\ current_game_level g2 = current_game_level g
          /\ pitch_count g2 = pitch_count g
          /\ game_score g2 = game_score g) as (Hst & Hl & Hp & Hs).
  { subst g2. unfold pitch_clock, ensure_bat.
    destruct (decide (length (bodies g) < 1)%nat); cbn;
      by destruct (pitch_time g && _). }
  clearbody g2. unfold track_bat. cbn. unfold pitch_spawn.
  destruct (pitch_due now g2) eqn:Hdue; cbn.
  - apply pitch_due_true in Hdue as (_ & _ & Hleft & Hstarted).
    rewrite Hl, Hst, Hs, Hp. split_and!; try done.
    right. split_and!; [done|congruence|lia].
  - rewrite Hl, Hst, Hs, Hp. split_and!; try done. by left.
Qed.

(** X26. One pitch at a time.  A frame that leaves the level as it is
    does not lower the score, and it either leaves the pitch count or
    takes one pitch off it; in the second case pitches were left and the
    game is in play. *)
Theorem frame_pitches_once (f : Frame) (s s' : Scene) :
  Baseball.display f s = Done s' ->
  current_game_level (game s') = current_game_level (game s) ->
  (game_score (game s) <= game_score (game s'))%Z
  /\ (pitch_count (game s') = pitch_count (game s)
      \/ (pitch_count (game s') = (pitch_count (game s) - 1)%Z
          /\ (-1 < pitch_count (game s))%Z
          /\ current_game_state (game s') = started)).
Proof.
  intros Hrun. apply display_done in Hrun as (c & s1 & Hsim & ->).
  apply simulate_done in Hsim as [(Hk & _ & Hscore) _].
  destruct (camera_follow_fields (game s1)) as (Hk2 & _ & Hs2).
  destruct Hk as (_ & Hst & Hl & _ & _ & Hp & _).
  destruct Hk2 as (_ & Hst' & Hl' & _ & _ & Hp' & _).
  cbn [game clock] in *. rewrite Hst', Hl', Hp', Hs2, Hst, Hl, Hp.
  revert Hscore. generalize (game_score (game s1)). intros score'.
  unfold frame_rules. cbv zeta.
  destruct (note_start_fields (game s)) as [v ->].
  rewrite level_progression_started, update_target_started.
  pose proof (update_target_standing (level_progression (game s))) as Hut.
  pose proof (update_target_state (level_progression (game s))) as Huts.
  revert Hut Huts.
  generalize (update_target (level_progression (game s))). intros g1 Hut Huts.
  pose proof (frame_tail_pitch f (animation_time f / of_Z 1000)
                (set_game_started v g1)) as Htail.
  cbv zeta in Htail. destruct Htail as (Htl & Hts & Htsc & Htp).
  rewrite Htl, Hts, Htsc.
  destruct (started_fields v g1) as (Hv1 & Hv2 & _). rewrite Hv1.
  assert (pitch_count (set_game_started v g1) = pitch_count g1
          /\ game_score (set_game_started v g1) = game_score g1
          /\ current_game_state (set_game_started v g1)
             = current_game_state g1) as (Hv3 & Hv4 & Hv5) by done.
  rewrite Hv3, Hv4, Hv5 in *.
  apply standing_inv in Hut as (Hl1 & Hs1 & Hp1). rewrite Hl1.
  intros Hscore Hsame.
  apply progression_same_level, standing_inv in Hsame as (_ & Hs0 & Hp0).
  rewrite Hs1, Hs0 in Hscore. split; [exact Hscore|].
  rewrite Hp1, Hp0 in Htp.
  destruct Htp as [Heq|(Heq & Hst1 & Hleft)]; [by left|right].
  rewrite Heq. split_and!; [done|lia|done].
Qed.

End PitchFacts.

(** * The theorems on examples

    Each theorem that has hypotheses is applied to an input built from
    the rational matrices of [Rational.lib]. *)

#[local] Existing Instance Rational.lib.

(** On the start screen a frame steps the clock twice for the title balls
    and twice in [simulate], and places the bat. *)
Example start_screen_frame :
  Example.summary (run [Draw (Example.frame 16 16)] initial)
  = Some (4%Z, 1%nat, 10%Z, not_started, 1%Z, 0%Z).
Proof. by vm_compute. Qed.

(** After "Start Game" the first ball is pitched once the time of the
    frame has passed two seconds, and not before. *)
Example first_pitch :
  Example.summary
    (run [Key_x; Draw (Example.frame 1000 16); Draw (Example.frame 2000 16)]
         initial)
  = Some (4%Z, 1%nat, 10%Z, started, 1%Z, 0%Z)
  /\ Example.summary
       (run [Key_x; Draw (Example.frame 1000 16); Draw (Example.frame 2000 16);
             Draw (Example.frame 2016 16)]
            initial)
     = Some (6%Z, 2%nat, 9%Z, started, 1%Z, 0%Z).
Proof. split; by vm_compute. Qed.

Lemma simulate_at_most_two_steps_witness :
  exists s' : Scene,
    Baseball.simulate 2 (fun _ => 0) (of_Z 1000) Example.after_one_frame
    = Done s'
    /\ (steps_taken (clock Example.after_one_frame) <= steps_taken (clock s')
        <= steps_taken (clock Example.after_one_frame) + 2)%Z.
Proof.
  apply simulate_at_most_two_steps; [|by vm_compute|lia].
  destruct (simulate_at_most_two_steps initial 2 (fun _ => 0) (of_Z 16)
              sim_initial ltac:(by vm_compute) ltac:(lia))
    as (s1 & Hrun & _).
  apply (sim_simulate initial 2 (fun _ => 0) (of_Z 16));
    [apply sim_initial|by vm_compute|].
  unfold Example.after_one_frame. by rewrite Hrun.
Defined.

Lemma level_progression_rules_witness :
  level_progression (Example.last_pitch 3)
  = set_pitch_count 10
      (set_game_score 0 (set_current_game_level 2 (Example.last_pitch 3)))
  /\ level_progression (Example.last_pitch 2)
     = set_current_game_state game_over (Example.last_pitch 2).
Proof.
  split.
  - apply (proj1 (proj2 (proj2 level_progression_rules)));
      [reflexivity|reflexivity|cbn; lia].
  - apply (proj1 (proj2 level_progression_rules));
      [reflexivity|reflexivity|cbn; lia].
Defined.


Lemma check_if_colliding_spec_witness :
  exists r : bool,
    check_if_colliding Example.bat_and_ball 0 1
      (collider (game initial)) = Done r.
Proof.
  destruct (proj1 (proj2 check_if_colliding_spec)
              Example.bat_and_ball 0%nat 1%nat (collider (game initial))
              _ _ ltac:(lia) eq_refl eq_refl eq_refl)
    as (r & Hr & _).
  by exists r.
Defined.




Lemma levels_one_and_two_witness :
  current_game_level (game (on_game restart_game initial)) = 1%Z
  \/ current_game_level (game (on_game restart_game initial)) = 2%Z.
Proof.
  apply (proj1 levels_one_and_two).
  apply (reach_step initial Key_r); [apply reach_initial|reflexivity].
Defined.

Lemma accumulator_stays_within_one_step_witness :
  exists n : nat, forall fuel : nat, (n <= fuel)%nat ->
    exists (c : Clock) (g : Game),
      stepping (tick Baseball.update_state (fun _ => 0)) fuel (of_Z 1000)
               (clock initial) (game initial) = Done (c, g)
      /\ Baseball.simulate fuel (fun _ => 0) (of_Z 1000) initial
         = Done {| clock := c;
                   game := set_bodies
                             (map (blend_state (alpha_of c)) (bodies g)) g |}
      /\ dt c = dt (clock initial)
      /\ 0 <= time_accumulator c /\ time_accumulator c < dt c
      /\ 0 <= alpha_of c /\ alpha_of c < 1.
Proof.
  apply (proj1 accumulator_stays_within_one_step initial (fun _ => 0)
           (of_Z 1000)); by vm_compute.
Defined.


(** ** Further properties on examples *)

Lemma getRandomInt_within_witness :
  (Math_ceil (qc 19 2) <= getRandomInt (qc 1 2) (qc 19 2) (qc 37 2)
   < Math_floor (qc 37 2))%Z
  /\ getRandomInt (qc 1 2) (qc 5 2) (qc 7 2) = Math_ceil (qc 5 2).
Proof.
  split.
  - apply (proj1 (getRandomInt_within (qc 1 2) (qc 19 2) (qc 37 2)
                    ltac:(by vm_compute) ltac:(by vm_compute)));
      by vm_compute.
  - apply (proj2 (getRandomInt_within (qc 1 2) (qc 5 2) (qc 7 2)
                    ltac:(by vm_compute) ltac:(by vm_compute))).
    by vm_compute.
Defined.

Lemma sphere_within_cube_witness :
  intersect_cube (Vec_of (qc 1 2) (qc 1 2) (qc 1 2)) (qc 7 10) = true.
Proof.
  apply (proj1 (sphere_within_cube (Vec_of (qc 1 2) (qc 1 2) (qc 1 2))
                  (qc 7 10) ltac:(by vm_compute))).
  by vm_compute.
Defined.

Lemma simulate_negative_time_unbounded_witness :
  Baseball.simulate 3 (fun _ => 0) (- qc 1 2) initial = OutOfFuel.
Proof.
  apply (simulate_negative_time_unbounded initial 3 (fun _ => 0) (- qc 1 2)).
  - apply sim_initial.
  - by vm_compute.
Defined.

Lemma batter_stays_in_box_witness :
  batter_x (control Key_l (controls_after [Key_l; Key_l; Key_l; Key_l]))
  = of_Z (-2).
Proof.
  apply (proj2 (proj2 (batter_stays_in_box [Key_l; Key_l; Key_l; Key_l]))).
  apply Qc_is_canon. by vm_compute.
Defined.


Lemma camera_selection_valid_witness :
  is_Some
    (Camera.desired_camera
       (Camera.increase
          (Camera.after
             [Camera.Cameras [Rational.identity; Rational.identity];
              Camera.Increase]))).
Proof.
  apply (proj1 (proj2 (camera_selection_valid
                         [Camera.Cameras [Rational.identity; Rational.identity];
                          Camera.Increase]))).
  done.
Defined.

Lemma camera_display_moves_witness :
  Camera.display (of_Z 100)
    (Rational.translation (Vec_of 0 (of_Z 10) (of_Z 80)))
    {| cameras := [Rational.identity]; selection := 0; enabled := true |}
  = Some Rational.identity.
Proof.
  destruct (proj2 (camera_display_moves (of_Z 16)
                     (Rational.translation (Vec_of 0 (of_Z 10) (of_Z 80)))
                     {| cameras := [Rational.identity]; selection := 0;
                        enabled := true |})
              Rational.identity eq_refl ltac:(cbn; lia) eq_refl)
    as (_ & _ & Hjump & _).
  exact Hjump.
Defined.

Lemma launch_once_witness :
  let ball :=
    Example.body_at ball_4 baseball (Vec_of 0 0 (- 1)) (Vec_of 0 0 (of_Z 14)) in
  v1 (linear_velocity ball) + of_Z 10
  <= v1 (linear_velocity (Baseball.launch (qc 1 2) ball)).
Proof.
  intros ball.
  destruct (proj2 (proj2 (proj2 (launch_once (qc 1 2) 0 ball))))
    as (Hboost & _); [by vm_compute..|].
  exact Hboost.
Defined.

Lemma hit_ball_flies_out_witness :
  v2 (linear_velocity
        (Baseball.post_hit (qc 1 20) (qc 1 2)
           (Example.in_play (Example.falling_ball 161) true false)
           (Example.falling_ball 161)).2)
  <= 0.
Proof.
  apply (proj1 (hit_ball_flies_out (qc 1 20) (qc 1 2)
                  (Example.in_play (Example.falling_ball 161) true false)
                  (Example.falling_ball 161) eq_refl)).
Defined.

Lemma bounce_turns_up_witness :
  0 < v1 (linear_velocity
            (Baseball.bounce Example.waiting (Example.falling_ball 161)).2).
Proof.
  apply (proj1 (bounce_turns_up Example.waiting (Example.falling_ball 161)
                  ltac:(by vm_compute))).
Defined.

Lemma update_state_lone_body_witness :
  Baseball.update_state (qc 1 20) 0 (game initial) = Done (game initial).
Proof.
  apply (proj1 (update_state_lone_body (qc 1 20) 0 (game initial))).
  reflexivity.
Defined.

Lemma update_state_retires_far_witness :
  exists g' : Game,
    Baseball.update_state (qc 1 20) (qc 1 2)
      (Example.in_play (Example.falling_ball 161) true false)
    = Done g'
    /\ forall b : Body,
         In b (bodies g') -> Baseball.near (of_Z 300) b = true.
Proof.
  destruct (update_state_ok (qc 1 20) (qc 1 2)
              (Example.in_play (Example.falling_ball 161) true false))
    as (g' & Hrun & _).
  exists g'. split; [exact Hrun|].
  apply (update_state_retires_far _ _ _ g' Hrun). cbn. lia.
Defined.

Lemma simulate_keeps_rules_witness :
  exists s' : Scene,
    Baseball.simulate 2 (fun _ => 0) (of_Z 16) initial = Done s'
    /\ rules_kept (game initial) (game s').
Proof.
  destruct (simulate_returns 2 (fun _ => 0) (of_Z 16) initial
              initial_clock_ok ltac:(by vm_compute) ltac:(lia))
    as [s' Hrun].
  exists s'. split; [exact Hrun|].
  exact (proj1 (simulate_keeps_rules _ _ _ _ _ Hrun)).
Defined.

Lemma reachable_bounds_witness :
  (-1 <= pitch_count (game (on_game start_game initial)) <= 10)%Z.
Proof.
  apply (proj1 (proj2 (reachable_bounds (on_game start_game initial)
                         (reach_step initial Key_x _ reach_initial eq_refl)))).
Defined.

Lemma pitch_waits_two_seconds_witness :
  pitch_spawn (Example.frame 2000 16) 2
    (pitch_clock 2 (pitch_clock 1 (set_pitch_time true Example.waiting)))
  = pitch_clock 1 (set_pitch_time true Example.waiting).
Proof.
  destruct (pitch_waits_two_seconds (Example.frame 2000 16) 1 2
              (set_pitch_time true Example.waiting) eq_refl
              ltac:(vm_compute; lia))
    as (_ & _ & _ & _ & Hlater).
  apply Hlater. by vm_compute.
Defined.

Lemma game_frames_return_witness :
  exists s : Scene,
    run [Key_x; Draw (Example.frame 1000 16)] initial = Done s
    /\ reachable s.
Proof.
  apply game_frames_return.
  apply Forall_cons; [exact I|].
  apply Forall_cons; [|apply Forall_nil].
  split; [by vm_compute|cbn; lia].
Defined.


(** The game can be won: the events of [Example.winning_events] end in the
    phase "won" after 143 frames. *)
Example winning_game :
  Example.summary (run Example.winning_events initial)
  = Some (286%Z, 1%nat, (-1)%Z, game_won, 2%Z, 5%Z).
Proof. by vm_compute. Qed.

Lemma won_stays_won_witness :
  current_game_level (game Example.won_scene) = 2%Z
  /\ pitch_count (game Example.won_scene) = (-1)%Z
  /\ (5 <= game_score (game Example.won_scene))%Z.
Proof.
  assert (reachable Example.won_scene) as Hreach.
  { unfold Example.won_scene, Example.last_scene.
    destruct (run Example.winning_events initial) as [s| |] eqn:Hrun.
    - exact (run_reachable _ _ _ reach_initial Hrun).
    - apply reach_initial.
    - apply reach_initial. }
  assert (current_game_state (game Example.won_scene) = game_won) as Hwon
    by (by vm_compute).
  exact (proj1 (won_stays_won Example.won_scene Hreach Hwon)).
Defined.

Lemma quiet_before_start_witness :
  exists s : Scene,
    run [Draw (Example.frame 16 16); Key_8; Draw (Example.frame 32 16)] initial
    = Done s
    /\ quiet (game s) /\ length (bodies (game s)) = 1%nat.
Proof.
  destruct (run_total
              [Draw (Example.frame 16 16); Key_8; Draw (Example.frame 32 16)]
              initial reach_initial initial_clock_ok)
    as (s & Hrun & _).
  { apply Forall_cons; [split; [by vm_compute|cbn; lia]|].
    apply Forall_cons; [exact I|].
    apply Forall_cons; [split; [by vm_compute|cbn; lia]|apply Forall_nil]. }
  exists s. split; [exact Hrun|].
  destruct (quiet_before_start
              [Draw (Example.frame 16 16); Key_8; Draw (Example.frame 32 16)] s
              ltac:(repeat (apply Forall_cons; [exact I|]); apply Forall_nil)
              Hrun) as [Hq Hbat].
  split; [exact Hq|]. apply Hbat. exists (Example.frame 16 16). by left.
Defined.

Lemma frame_pitches_once_witness :
  exists s' : Scene,
    Baseball.display (Example.frame 3000 16) (on_game start_game initial)
    = Done s'
    /\ (game_score (game (on_game start_game initial)) <= game_score (game s'))%Z.
Proof.
  assert (reachable (on_game start_game initial)) as Hreach
    by exact (reach_step initial Key_x _ reach_initial eq_refl).
  destruct (display_total (Example.frame 3000 16) (on_game start_game initial)
              initial_clock_ok ltac:(by vm_compute) ltac:(cbn; lia))
    as (s' & Hrun & _).
  exists s'. split; [exact Hrun|].
  apply (frame_pitches_once _ _ s' Hrun).
  destruct (display_ok _ _ s' (reachable_ok _ Hreach) Hrun) as (_ & Hl & _).
  rewrite Hl. rewrite progression_idle; [reflexivity|cbn; lia|cbn; lia].
Defined.
